(** * smartdirs: a shallow embedding of [smartdirs/core.py]

    The development follows the source file top to bottom:
    - [Py]      : the Python built-ins the code calls on strings and integers
                  ([str.join], [str.lstrip], [str.replace], [int], [str]);
    - [Clock]   : [datetime] values and [strftime] for the directives the
                  code's own formats use;
    - [Re]      : the regular expression assembled at line 127 and a
                  backtracking matcher for it;
    - [Fs]      : the directory tree the code creates directories and the
                  log file in;
    - [load_config], [log_directory], [create_dir]: the three functions of
                  the module, in state-passing style over a [world]. *)

From Stdlib Require Import NArith Ascii String List Lia Bool.
From Stdlib Require Import Numbers.DecimalString Numbers.DecimalN Numbers.DecimalPos Numbers.DecimalFacts.
From stdpp Require Import gmap strings list fin_maps.

Local Open Scope N_scope.

(** String concatenation is written [+:+]; it computes on a literal head. *)
#[local] Arguments String.append !_ _ / : simpl nomatch.
#[local] Arguments Ascii.eqb !_ !_ / : simpl nomatch.

(* ===================================================================== *)
(** ** Python built-ins on [str] and [int] *)
(* ===================================================================== *)

Module Py.

(** Characters are code points below 256; on that range the only
    decimal digits (what [\d] and [int] accept) are ['0'] .. ['9']. *)
Definition is_digit (c : ascii) : bool :=
  let n := N_of_ascii c in (48 <=? n) && (n <=? 57).

Definition newline : ascii := ascii_of_N 10.

Fixpoint all_chars (p : ascii -> bool) (s : string) : bool :=
  match s with
  | EmptyString => true
  | String c s' => p c && all_chars p s'
  end.

Fixpoint mem_char (c : ascii) (chars : string) : bool :=
  match chars with
  | EmptyString => false
  | String x chars' => Ascii.eqb c x || mem_char c chars'
  end.

(** [str(n)] and the [{n}] field of an f-string, for [n >= 0]. *)
Definition str (n : N) : string := NilZero.string_of_uint (N.to_uint n).

(** [int(s)]: [None] stands for [ValueError]. *)
Definition int (s : string) : option N :=
  match s with
  | EmptyString => None
  | _ => if all_chars is_digit s
         then option_map N.of_uint (NilZero.uint_of_string s)
         else None
  end.

(** [sep.join(parts)] *)
Fixpoint join (sep : string) (parts : list string) : string :=
  match parts with
  | [] => EmptyString
  | [p] => p
  | p :: rest => p +:+ sep +:+ join sep rest
  end.

(** The test [if s] on a string: true unless it is empty. *)
Definition truthy (s : string) : bool :=
  match s with EmptyString => false | _ => true end.

(** [[s for s in parts if s]] *)
Definition non_empty (parts : list string) : list string :=
  List.filter truthy parts.

(** [s.lstrip(chars)]: drops leading characters while they are in [chars]. *)
Fixpoint lstrip (chars s : string) : string :=
  match s with
  | EmptyString => EmptyString
  | String c s' => if mem_char c chars then lstrip chars s' else s
  end.

(** [s.startswith(p)] *)
Fixpoint startswith (p s : string) : bool :=
  match p with
  | EmptyString => true
  | String a p' =>
      match s with
      | EmptyString => false
      | String b s' => Ascii.eqb a b && startswith p' s'
      end
  end.

(** [s.replace(old, new)] for a nonempty [old]: left to right, occurrences
    that do not overlap.  [skip] counts the characters of the occurrence
    just replaced that are still to be passed over. *)
Fixpoint replace_from (old new : string) (skip : nat) (s : string) : string :=
  match s with
  | EmptyString => EmptyString
  | String c s' =>
      match skip with
      | S k => replace_from old new k s'
      | O => if startswith old s
             then new +:+ replace_from old new (Nat.pred (String.length old)) s'
             else String c (replace_from old new O s')
      end
  end.

(** With an empty [old] Python puts [new] before every character and at
    the end. *)
Fixpoint replace_empty (new s : string) : string :=
  match s with
  | EmptyString => new
  | String c s' => new +:+ String c (replace_empty new s')
  end.

Definition replace (old new s : string) : string :=
  match old with
  | EmptyString => replace_empty new s
  | _ => replace_from old new O s
  end.

End Py.

(* ===================================================================== *)
(** ** [datetime] and [strftime] *)
(* ===================================================================== *)

Module Clock.

Record datetime := {
  year : N; month : N; day : N; hour : N; minute : N; second : N
}.

(** What [datetime.now] can return: a calendar date of a four-digit year
    and a time of day. *)
Definition valid (dt : datetime) : bool :=
  (1000 <=? year dt) && (year dt <=? 9999)
  && (1 <=? month dt) && (month dt <=? 12)
  && (1 <=? day dt) && (day dt <=? 31)
  && (hour dt <? 24) && (minute dt <? 60) && (second dt <? 60).

(** Two-digit, zero-padded field ([%m %d %H %I %M %S]). *)
Definition pad2 (n : N) : string :=
  if n <? 10 then String "0" (Py.str n) else Py.str n.

(** The hour on the 12-hour clock ([%I]): 1 .. 12. *)
Definition hour12 (h : N) : N :=
  let r := h mod 12 in if r =? 0 then 12 else r.

(** [%p] in the C locale. *)
Definition am_pm (h : N) : string := if h <? 12 then "AM" else "PM".

(** [%b] in the C locale. *)
Definition month_abbr (m : N) : string :=
  nth (N.to_nat (m - 1))
    ["Jan"; "Feb"; "Mar"; "Apr"; "May"; "Jun";
     "Jul"; "Aug"; "Sep"; "Oct"; "Nov"; "Dec"] "???".

(** One conversion.  [None]: a directive this model does not cover. *)
Definition directive (c : ascii) (dt : datetime) : option string :=
  if Ascii.eqb c "Y" then Some (Py.str (year dt))
  else if Ascii.eqb c "m" then Some (pad2 (month dt))
  else if Ascii.eqb c "d" then Some (pad2 (day dt))
  else if Ascii.eqb c "H" then Some (pad2 (hour dt))
  else if Ascii.eqb c "I" then Some (pad2 (hour12 (hour dt)))
  else if Ascii.eqb c "M" then Some (pad2 (minute dt))
  else if Ascii.eqb c "S" then Some (pad2 (second dt))
  else if Ascii.eqb c "p" then Some (am_pm (hour dt))
  else if Ascii.eqb c "b" then Some (month_abbr (month dt))
  else if Ascii.eqb c "%" then Some "%"
  else None.

(** [dt.strftime(fmt)]: ordinary characters are copied, [%x] is converted.
    The result is [None] when [fmt] uses a directive outside the table
    above or ends in a lone [%]. *)
Fixpoint strftime (fmt : string) (dt : datetime) : option string :=
  match fmt with
  | EmptyString => Some EmptyString
  | String "%" (String c rest) =>
      match directive c dt, strftime rest dt with
      | Some field, Some out => Some (field +:+ out)
      | _, _ => None
      end
  | String "%" EmptyString => None
  | String c rest => option_map (String c) (strftime rest dt)
  end.

End Clock.

(* ===================================================================== *)
(** ** The pattern of line 127 and [re.match] *)
(* ===================================================================== *)

Module Re.

(** What one character of pattern text stands for. *)
Inductive atom :=
| Lit (c : ascii)      (* the character itself *)
| AnyChar.             (* [.]: any character but a newline *)

Definition atom_match (a : atom) (c : ascii) : bool :=
  match a with
  | Lit x => Ascii.eqb x c
  | AnyChar => negb (Ascii.eqb c Py.newline)
  end.

(** The characters that are not ordinary in pattern text. *)
Definition special : string := ".^$*+?{}[]\|()".

(** The separator is pasted into the pattern as it is, so it is read as
    pattern text.  Text made of ordinary characters and of [.] is a
    sequence of atoms; [None] is pattern text outside this fragment
    (one of the other special characters occurs in it). *)
Fixpoint compile_text (text : string) : option (list atom) :=
  match text with
  | EmptyString => Some []
  | String c rest =>
      if Ascii.eqb c "." then option_map (cons AnyChar) (compile_text rest)
      else if Py.mem_char c special then None
      else option_map (cons (Lit c)) (compile_text rest)
  end.

(** [re.escape(s)] is pattern text that stands for [s] itself. *)
Fixpoint escape (s : string) : list atom :=
  match s with
  | EmptyString => []
  | String c rest => Lit c :: escape rest
  end.

Inductive group := G1 | G2.

#[warnings="-register-all"]
Inductive regex :=
| Atom (a : atom)
| Digits (g : group)        (* [(\d+)], capturing group [g] *)
| Opt (body : list regex)   (* [(?: body )?], greedy *)
| Bol                       (* [^] *)
| Eol.                      (* [$] *)

(** [match.group(1)], [match.group(2)]: [None] when the group took no
    part in the match. *)
Record captures := { group1 : option string; group2 : option string }.

Definition no_captures : captures := {| group1 := None; group2 := None |}.

Definition set_group (g : group) (text : string) (c : captures) : captures :=
  match g with
  | G1 => {| group1 := Some text; group2 := group2 c |}
  | G2 => {| group1 := group1 c; group2 := Some text |}
  end.

(** [$] without [re.MULTILINE]: at the end of the string, or just before
    a newline that ends the string. *)
Definition at_end (s : string) : bool :=
  match s with
  | EmptyString => true
  | String c EmptyString => Ascii.eqb c Py.newline
  | _ => false
  end.

(** A continuation receives the position reached, the rest of the
    subject and the captures so far; [None] makes the matcher backtrack. *)
Definition cont : Type := nat -> string -> captures -> option captures.

(** [\d+], greedy: as many digits as there are, giving them back one at
    a time while the rest of the pattern fails.  [taken] holds the digits
    consumed so far. *)
Fixpoint digits_greedy (taken : string) (pos : nat) (s : string)
         (k : string -> nat -> string -> option captures) : option captures :=
  match s with
  | EmptyString => None
  | String x s' =>
      if Py.is_digit x then
        let taken' := taken +:+ String x EmptyString in
        match digits_greedy taken' (S pos) s' k with
        | Some r => Some r
        | None => k taken' (S pos) s'
        end
      else None
  end.

Fixpoint run (r : regex) (pos : nat) (s : string) (c : captures) (k : cont)
  : option captures :=
  match r with
  | Atom a =>
      match s with
      | String x s' => if atom_match a x then k (S pos) s' c else None
      | EmptyString => None
      end
  | Digits g =>
      digits_greedy EmptyString pos s (fun text pos' s' => k pos' s' (set_group g text c))
  | Opt body =>
      let fix run_body (rs : list regex) pos s c (k : cont) :=
        match rs with
        | [] => k pos s c
        | r' :: rs' => run r' pos s c (fun pos' s' c' => run_body rs' pos' s' c' k)
        end in
      match run_body body pos s c k with
      | Some res => Some res
      | None => k pos s c
      end
  | Bol => match pos with O => k pos s c | S _ => None end
  | Eol => if at_end s then k pos s c else None
  end.

Fixpoint run_seq (rs : list regex) (pos : nat) (s : string) (c : captures) (k : cont)
  : option captures :=
  match rs with
  | [] => k pos s c
  | r :: rs' => run r pos s c (fun pos' s' c' => run_seq rs' pos' s' c' k)
  end.

(** [re.match(pattern, s)]: the pattern is tried at the start of [s] and
    need not reach its end (the pattern's own [$] sees to that). *)
Definition re_match (pattern : list regex) (s : string) : option captures :=
  run_seq pattern O s no_captures (fun _ _ c => Some c).

(** Line 127:
    [rf"^(?:(\d+){separator})?{re.escape(dir_base)}(?:{separator}(\d+))?$"]. *)
Definition pattern (separator dir_base : string) : option (list regex) :=
  match compile_text separator with
  | Some sep =>
      Some ([Bol; Opt (Digits G1 :: map Atom sep)]
            ++ map Atom (escape dir_base)
            ++ [Opt (map Atom sep ++ [Digits G2]); Eol])
  | None => None
  end.

End Re.

(* ===================================================================== *)
(** ** Naming: lines 104-106 and 112-149 of [create_dir] *)
(* ===================================================================== *)

(** The [config] dictionary returned by [load_config]. *)
Record config := {
  cfg_timezone : option string;
  time_format_with_seconds : bool;
  cfg_log_dir : option string
}.

(** Lines 105-106. *)
Definition resolve_time_format (time_format : option string) (cfg : config) : string :=
  match time_format with
  | Some f => f
  | None => if time_format_with_seconds cfg then "%I:%M:%S%p" else "%I:%M%p"
  end.

(** Line 117: [now.strftime(time_format).lstrip("0")]. *)
Definition time_str (time_format : string) (now : Clock.datetime) : option string :=
  option_map (Py.lstrip "0") (Clock.strftime time_format now).

(** Lines 113-118.  [None]: a format outside the modelled directives. *)
Definition timestamp (use_date use_time : bool) (date_format time_format separator : string)
           (now : Clock.datetime) : option string :=
  if use_date || use_time then
    match (if use_date then Clock.strftime date_format now else Some EmptyString),
          (if use_time then time_str time_format now else Some EmptyString) with
    | Some date_str, Some time_s =>
        Some (Py.join separator (Py.non_empty [date_str; time_s]))
    | _, _ => None
    end
  else Some EmptyString.

(** Line 121. *)
Definition dir_base (base_name stamp separator : string) : string :=
  Py.join separator (Py.non_empty [base_name; stamp]).

(** [int(match.group(i) or 0)]: an absent group counts as 0.  A group that
    took part holds the text of [\d+], which [int] reads; the default is
    for the [ValueError] that cannot happen there. *)
Definition group_num (g : option string) : N :=
  match g with
  | None => 0
  | Some text => match Py.int text with Some n => n | None => 0 end
  end.

(** The body of the loop of lines 130-136, on the pair
    [(max_prefix, max_suffix)]. *)
Definition scan_step (pat : list Re.regex) (acc : N * N) (dir_name : string) : N * N :=
  match Re.re_match pat dir_name with
  | Some m => (N.max (fst acc) (group_num (Re.group1 m)),
               N.max (snd acc) (group_num (Re.group2 m)))
  | None => acc
  end.

(** Lines 128-136. *)
Definition scan (pat : list Re.regex) (existing_dirs : list string) : N * N :=
  fold_left (scan_step pat) existing_dirs (0, 0).

(** Lines 139-149. *)
Definition new_dir_name (prefix suffix : bool) (separator base : string)
           (max_prefix max_suffix : N) : string :=
  if prefix && negb suffix then
    let new_num := max_prefix + 1 in
    Py.str new_num +:+ separator +:+ base
  else if suffix && negb prefix then
    let new_num := max_suffix + 1 in
    base +:+ separator +:+ Py.str new_num
  else if prefix && suffix then
    let new_num := N.max max_prefix max_suffix + 1 in
    Py.str new_num +:+ separator +:+ base +:+ separator +:+ Py.str new_num
  else base.

(** Lines 127-149: from the names of the sibling directories to the new
    name.  [None]: the separator is pattern text outside the fragment of
    [Re.compile_text]. *)
Definition choose_name (prefix suffix : bool) (separator base : string)
           (existing_dirs : list string) : option string :=
  match Re.pattern separator base with
  | Some pat =>
      let '(max_prefix, max_suffix) := scan pat existing_dirs in
      Some (new_dir_name prefix suffix separator base max_prefix max_suffix)
  | None => None
  end.

(* ===================================================================== *)
(** ** Paths and the directory tree *)
(* ===================================================================== *)

Module Fs.

(** A resolved location: the names from the root down. *)
Abbreviation path := (list string) (only parsing).

(** A [pathlib.Path]: its parts as written, not resolved ([..] is kept). *)
Record pypath := { absolute : bool; parts : list string }.

(** The pieces of [s] between occurrences of [c]. *)
Fixpoint split_on (c : ascii) (s : string) : list string :=
  match s with
  | EmptyString => [EmptyString]
  | String x s' =>
      if Ascii.eqb x c then EmptyString :: split_on c s'
      else match split_on c s' with
           | piece :: pieces => String x piece :: pieces
           | [] => [String x EmptyString]
           end
  end.

Definition is_part (name : string) : bool :=
  negb (String.eqb name "" || String.eqb name ".").

(** [Path(s)]: empty parts and [.] are dropped. *)
Definition Path (s : string) : pypath :=
  {| absolute := String.prefix "/" s;
     parts := List.filter is_part (split_on "/" s) |}.

(** [p / name]: an absolute right operand replaces the left one. *)
Definition joinpath (p : pypath) (name : string) : pypath :=
  let q := Path name in
  if absolute q then q
  else {| absolute := absolute p; parts := parts p ++ parts q |}.

(** [p.name]: the last part, or the empty string. *)
Definition name (p : pypath) : string := List.last (parts p) EmptyString.

Definition parent_of (p : path) : path := removelast p.

(** Where the walk down [names] from [cur] ends ([..] goes up, the
    root's parent being the root). *)
Fixpoint resolve (cur : path) (names : list string) : path :=
  match names with
  | [] => cur
  | n :: rest =>
      if String.eqb n ".." then resolve (parent_of cur) rest
      else resolve (cur ++ [n]) rest
  end.

(** A log file holds the rows written to it. *)
Inductive node :=
| Dir
| File (rows : list (list string)).

Definition is_dir (n : option node) : bool :=
  match n with Some Dir => true | _ => false end.

(** [mkdir(parents=True, exist_ok=True)] below an existing [cur]: every
    missing directory on the way is created; [None] ([OSError]) when a
    name on the way is taken by a file. *)
Fixpoint mkdir_walk (t : gmap path node) (cur : path) (names : list string)
  : option (gmap path node) :=
  match names with
  | [] => Some t
  | n :: rest =>
      if String.eqb n ".." then mkdir_walk t (parent_of cur) rest
      else
        let p := cur ++ [n] in
        match t !! p with
        | Some Dir => mkdir_walk t p rest
        | Some (File _) => None
        | None => mkdir_walk (<[p := Dir]> t) p rest
        end
  end.

(** The name of [p] when [p] lies directly in [dir]. *)
Definition child_name (dir p : path) : option string :=
  match List.rev p with
  | n :: up => if decide (List.rev up = dir) then Some n else None
  | [] => None
  end.

(** [[d.name for d in dir.iterdir() if d.is_dir()]] *)
Definition subdirs (t : gmap path node) (dir : path) : list string :=
  omap (fun '(p, n) => match n with
                       | Dir => child_name dir p
                       | File _ => None
                       end) (map_to_list t).

(** [open(p, "a")] followed by the rows written: [header] goes first when
    the file is new.  [None] ([OSError]): [p] is a directory. *)
Definition append_rows (t : gmap path node) (p : path)
           (header row : list string) : option (gmap path node) :=
  match t !! p with
  | None => Some (<[p := File [header; row]]> t)
  | Some (File rows) => Some (<[p := File (rows ++ [row])]> t)
  | Some Dir => None
  end.

End Fs.

(* ===================================================================== *)
(** ** The world a call runs in *)
(* ===================================================================== *)

(** A [tzinfo]: a zone of the database, or the zone of the machine. *)
Inductive tzinfo :=
| Zone (name : string)
| Local.

(** What the call reads from its surroundings and does not change. *)
Record env := {
  cwd : Fs.path;                               (* the working directory *)
  home : string -> option Fs.pypath;           (* [~user]; [~] is user [""] *)
  known_zone : string -> bool;                 (* the zones [pytz] knows *)
  clock : tzinfo -> nat -> Clock.datetime      (* the n-th reading of the clock *)
}.

(** What the call changes: the tree, and the clock readings used up. *)
Record world := {
  tree : gmap Fs.path Fs.node;
  ticks : nat
}.

Inductive exn :=
| ValueError                 (* [getboolean] on a malformed value *)
| UnknownTimeZoneError
| RuntimeError               (* [expanduser] on an unknown user *)
| OSError.

Inductive outcome (A : Type) :=
| Returned (a : A)
| Raised (e : exn)
| Unmodelled.                (* the call leaves the fragment modelled here *)

Arguments Returned {A} a.
Arguments Raised {A} e.
Arguments Unmodelled {A}.

(** Computations that read and change the world and may raise. *)
Definition M (A : Type) : Type := world -> outcome A * world.

Definition ret {A} (a : A) : M A := fun w => (Returned a, w).
Definition raise {A} (e : exn) : M A := fun w => (Raised e, w).
Definition unmodelled {A} : M A := fun w => (Unmodelled, w).

Definition bind {A B} (m : M A) (f : A -> M B) : M B :=
  fun w => match m w with
           | (Returned a, w') => f a w'
           | (Raised e, w') => (Raised e, w')
           | (Unmodelled, w') => (Unmodelled, w')
           end.

Declare Scope world_scope.
Delimit Scope world_scope with world.
Notation "'let*' x ':=' m 'in' k" := (bind m (fun x => k))
  (at level 10, x name, m at level 100, k at level 200) : world_scope.
Notation "'do' m 'then' k" := (bind m (fun _ => k))
  (at level 10, m at level 100, k at level 200) : world_scope.

Definition of_option {A} (o : option A) : M A :=
  match o with Some a => ret a | None => unmodelled end.

(** [datetime.now(tz)] *)
Definition datetime_now (e : env) (tz : tzinfo) : M Clock.datetime :=
  fun w => (Returned (clock e tz (ticks w)),
            {| tree := tree w; ticks := S (ticks w) |}).

Definition start_of (e : env) (p : Fs.pypath) : Fs.path :=
  if Fs.absolute p then [] else cwd e.

(** Where [p] is in the tree. *)
Definition locate (e : env) (p : Fs.pypath) : Fs.path :=
  Fs.resolve (start_of e p) (Fs.parts p).

(** [p.mkdir(parents=True, exist_ok=True)] *)
Definition mkdir (e : env) (p : Fs.pypath) : M unit :=
  fun w => match Fs.mkdir_walk (tree w) (start_of e p) (Fs.parts p) with
           | Some t => (Returned tt, {| tree := t; ticks := ticks w |})
           | None => (Raised OSError, w)
           end.

(** Line 124. *)
Definition existing_dirs (e : env) (p : Fs.pypath) : M (list string) :=
  fun w => (Returned (Fs.subdirs (tree w) (locate e p)), w).

(** [p.expanduser()] on a relative path whose first part starts with [~];
    [None]: the user has no home directory on record. *)
Definition expand_home (e : env) (p : Fs.pypath) : option Fs.pypath :=
  match Fs.absolute p, Fs.parts p with
  | false, String "~" user :: rest =>
      match home e user with
      | Some h => Some {| Fs.absolute := Fs.absolute h; Fs.parts := Fs.parts h ++ rest |}
      | None => None
      end
  | _, _ => Some p
  end.

Definition expanduser (e : env) (p : Fs.pypath) : M Fs.pypath :=
  match expand_home e p with
  | Some q => ret q
  | None => raise RuntimeError
  end.

(** [str(p.absolute())] *)
Definition absolute_str (e : env) (p : Fs.pypath) : string :=
  String "/" (Py.join "/" (start_of e p ++ Fs.parts p)).

(* ===================================================================== *)
(** ** [load_config] *)
(* ===================================================================== *)

(** What [configparser] finds at [config_file]: no file, a file without a
    [[smartdirs]] section, or the values of the three keys in that section
    ([None]: key absent). *)
Inductive settings_file :=
| NoFile
| NoSection
| Section (timezone time_format_with_seconds log_dir : option string).

Definition lower_char (c : ascii) : ascii :=
  let n := N_of_ascii c in
  if (65 <=? n) && (n <=? 90) then ascii_of_N (n + 32) else c.

Fixpoint lower (s : string) : string :=
  match s with
  | EmptyString => EmptyString
  | String c s' => String (lower_char c) (lower s')
  end.

(** [configparser]'s [BOOLEAN_STATES]. *)
Definition boolean_state (value : string) : option bool :=
  let v := lower value in
  if existsb (String.eqb v) ["1"; "yes"; "true"; "on"] then Some true
  else if existsb (String.eqb v) ["0"; "no"; "false"; "off"] then Some false
  else None.

(** [section.getboolean(key, fallback)] *)
Definition getboolean (value : option string) (fallback : bool) : exn + bool :=
  match value with
  | None => inr fallback
  | Some v => match boolean_state v with
              | Some b => inr b
              | None => inl ValueError
              end
  end.

Definition default_config : config :=
  {| cfg_timezone := None; time_format_with_seconds := false; cfg_log_dir := None |}.

Definition load_config (file : settings_file) : exn + config :=
  match file with
  | NoFile | NoSection => inr default_config
  | Section tz secs log =>
      match getboolean secs false with
      | inr b => inr {| cfg_timezone := tz; time_format_with_seconds := b; cfg_log_dir := log |}
      | inl e => inl e
      end
  end.

(* ===================================================================== *)
(** ** [log_directory] *)
(* ===================================================================== *)

Definition headers : list string := ["Date"; "Directory"; "Path"].

(** Line 43. *)
Definition creation_time (now : Clock.datetime) : option string :=
  option_map (Py.replace " 0" " ") (Clock.strftime "%b %d, %Y at %I:%M %p" now).

(** Lines 50-55. *)
Definition write_log (e : env) (log_file : Fs.pypath) (row : list string) : M unit :=
  fun w => match Fs.append_rows (tree w) (locate e log_file) headers row with
           | Some t => (Returned tt, {| tree := t; ticks := ticks w |})
           | None => (Raised OSError, w)
           end.

Definition log_directory (e : env) (log_dir : option string)
           (dir_path : Fs.pypath) (tz : tzinfo) : M unit :=
  (match log_dir with
   | None => ret tt
   | Some d =>
       if Py.truthy d then
         let* log_dir_path := expanduser e (Fs.Path d) in
         do mkdir e log_dir_path then
         let log_file := Fs.joinpath log_dir_path "smartdirs.log" in
         let* now := datetime_now e tz in
         let* created := of_option (creation_time now) in
         let row := [created; Fs.name dir_path; absolute_str e dir_path] in
         write_log e log_file row
       else ret tt
   end)%world.

(* ===================================================================== *)
(** ** [create_dir] *)
(* ===================================================================== *)

Module Args.
(** The arguments of [create_dir] but [config_file], whose content is
    passed as a [settings_file]. *)
Record t := {
  base_name : string;
  parent_dir : string;
  use_date : bool;
  use_time : bool;
  date_format : string;
  time_format : option string;
  timezone : option string;
  prefix : bool;
  suffix : bool;
  separator : string
}.
End Args.

(** [pytz.timezone(name)] *)
Definition pytz_timezone (e : env) (name : string) : M tzinfo :=
  if known_zone e name then ret (Zone name) else raise UnknownTimeZoneError.

(** Lines 97-102.  A string that is [None] or empty fails the [if]. *)
Definition resolve_timezone (e : env) (timezone : option string) (cfg : config) : M tzinfo :=
  match timezone with
  | Some (String c z) => pytz_timezone e (String c z)
  | _ =>
      match cfg_timezone cfg with
      | Some (String c z) => pytz_timezone e (String c z)
      | _ => ret Local
      end
  end.

Definition lift_config (r : exn + config) : M config :=
  match r with inr c => ret c | inl e => raise e end.

(** Lines 113-118. *)
Definition make_timestamp (e : env) (tz : tzinfo) (a : Args.t) (time_format : string)
  : M string :=
  (if Args.use_date a || Args.use_time a then
     let* now := datetime_now e tz in
     of_option (timestamp (Args.use_date a) (Args.use_time a) (Args.date_format a)
                          time_format (Args.separator a) now)
   else ret EmptyString)%world.

Definition create_dir (e : env) (file : settings_file) (a : Args.t) : M Fs.pypath :=
  (let* cfg := lift_config (load_config file) in
   let* tz := resolve_timezone e (Args.timezone a) cfg in
   let time_format := resolve_time_format (Args.time_format a) cfg in
   let parent_path := Fs.Path (Args.parent_dir a) in
   do mkdir e parent_path then
   let* stamp := make_timestamp e tz a time_format in
   let base := dir_base (Args.base_name a) stamp (Args.separator a) in
   let* existing := existing_dirs e parent_path in
   let* new_name := of_option (choose_name (Args.prefix a) (Args.suffix a)
                                          (Args.separator a) base existing) in
   let new_dir_path := Fs.joinpath parent_path new_name in
   do mkdir e new_dir_path then
   do log_directory e (cfg_log_dir cfg) new_dir_path tz then
   ret new_dir_path)%world.

(* ===================================================================== *)
(** ** What the specification talks about *)
(* ===================================================================== *)

(** The prefix numbers seen on the sibling names the pattern matches
    (0 for a matching name without a prefix), in the order of the names. *)
Definition observed_prefixes (pat : list Re.regex) (names : list string) : list N :=
  omap (fun dir_name => (fun m => group_num (Re.group1 m)) <$> Re.re_match pat dir_name) names.

(** The suffix numbers, likewise. *)
Definition observed_suffixes (pat : list Re.regex) (names : list string) : list N :=
  omap (fun dir_name => (fun m => group_num (Re.group2 m)) <$> Re.re_match pat dir_name) names.

(** The greatest number of a list, 0 for the empty list. *)
Definition max_of (l : list N) : N := foldr N.max 0 l.

(** A nonempty run of decimal digits. *)
Definition number (s : string) : Prop :=
  s <> EmptyString /\ Py.all_chars Py.is_digit s = true.

(** Removing one leading zero, when there is one. *)
Definition strip_one_zero (s : string) : string :=
  match s with
  | String "0" rest => rest
  | _ => s
  end.

(** A run of zeros. *)
Fixpoint zeros (n : nat) : string :=
  match n with
  | O => EmptyString
  | S k => String "0" (zeros k)
  end.

(** Every [0] that comes right after a space is dropped; [after_space]
    tells whether the character before [s] was a space. *)
Fixpoint drop_zero_after_space (after_space : bool) (s : string) : string :=
  match s with
  | EmptyString => EmptyString
  | String c s' =>
      if after_space && Ascii.eqb c "0"
      then drop_zero_after_space false s'
      else String c (drop_zero_after_space (Ascii.eqb c " ") s')
  end.

(** The identifier handed to [pytz.timezone], if any: the [timezone]
    argument when it is a nonempty string, else the configured one when
    that is a nonempty string. *)
Definition supplied_timezone (timezone : option string) (cfg : config) : option string :=
  match timezone with
  | Some (String c z) => Some (String c z)
  | _ =>
      match cfg_timezone cfg with
      | Some (String c z) => Some (String c z)
      | _ => None
      end
  end.

(** The same call with another [timezone] argument. *)
Definition with_timezone (a : Args.t) (tz : option string) : Args.t :=
  {| Args.base_name := Args.base_name a;
     Args.parent_dir := Args.parent_dir a;
     Args.use_date := Args.use_date a;
     Args.use_time := Args.use_time a;
     Args.date_format := Args.date_format a;
     Args.time_format := Args.time_format a;
     Args.timezone := tz;
     Args.prefix := Args.prefix a;
     Args.suffix := Args.suffix a;
     Args.separator := Args.separator a |}.

(** Where the log file of the log directory [d] is. *)
Definition log_file_of (e : env) (d : string) : option Fs.path :=
  match expand_home e (Fs.Path d) with
  | Some log_dir_path => Some (locate e (Fs.joinpath log_dir_path "smartdirs.log"))
  | None => None
  end.

(** The directories a walk goes through: they all exist once
    [Fs.mkdir_walk] has succeeded. *)
Fixpoint visited (cur : Fs.path) (names : list string) : list Fs.path :=
  match names with
  | [] => []
  | n :: rest =>
      if String.eqb n ".." then visited (Fs.parent_of cur) rest
      else (cur ++ [n]) :: visited (cur ++ [n]) rest
  end.

(** The names the specification has the pattern accept: an optional
    [<number><separator>], then [dir_base], then an optional
    [<separator><number>], the separator standing for itself. *)
Definition tagged_name (separator base name : string) : Prop :=
  exists pre suf,
    name = pre +:+ base +:+ suf
    /\ (pre = "" \/ exists n, number n /\ pre = n +:+ separator)
    /\ (suf = "" \/ exists n, number n /\ suf = separator +:+ n).

(** Every directory of [t] is a directory of [t']. *)
Definition dirs_kept (t t' : gmap Fs.path Fs.node) : Prop :=
  forall q, t !! q = Some Fs.Dir -> t' !! q = Some Fs.Dir.

(** [t] and [t'] have the same directories. *)
Definition same_dirs (t t' : gmap Fs.path Fs.node) : Prop :=
  forall q, t !! q = Some Fs.Dir <-> t' !! q = Some Fs.Dir.

(** ** The language of a pattern *)

(** Induction over patterns, with the hypothesis for every pattern of an
    optional group. *)
Definition regex_induction (P : Re.regex -> Prop)
  (Hatom : forall a, P (Re.Atom a))
  (Hdigits : forall g, P (Re.Digits g))
  (Hopt : forall body, Forall P body -> P (Re.Opt body))
  (Hbol : P Re.Bol) (Heol : P Re.Eol) : forall r, P r :=
  fix go (r : Re.regex) : P r :=
    match r with
    | Re.Atom a => Hatom a
    | Re.Digits g => Hdigits g
    | Re.Opt body =>
        Hopt body ((fix all (rs : list Re.regex) : Forall P rs :=
                      match rs with
                      | [] => @List.Forall_nil _ P
                      | r' :: rs' => @List.Forall_cons _ P r' rs' (go r') (all rs')
                      end) body)
    | Re.Bol => Hbol
    | Re.Eol => Heol
    end.

(** Both groups, where they took part in the match, hold a number. *)
Definition numbered_groups (c : Re.captures) : Prop :=
  (forall t, Re.group1 c = Some t -> number t)
  /\ (forall t, Re.group2 c = Some t -> number t).

(** [lang r pos w rest]: at position [pos], with [rest] following, the
    pattern [r] can take the text [w]. *)
Fixpoint lang (r : Re.regex) (pos : nat) (w rest : string) : Prop :=
  match r with
  | Re.Atom a => exists x, w = String x "" /\ Re.atom_match a x = true
  | Re.Digits _ => number w
  | Re.Opt body =>
      w = "" \/
      (fix lang_body (rs : list Re.regex) pos w rest :=
         match rs with
         | [] => w = ""
         | r' :: rs' =>
             exists w1 w2, w = w1 +:+ w2
                           /\ lang r' pos w1 (w2 +:+ rest)
                           /\ lang_body rs' (pos + String.length w1)%nat w2 rest
         end) body pos w rest
  | Re.Bol => w = "" /\ pos = O
  | Re.Eol => w = "" /\ Re.at_end rest = true
  end.

Fixpoint lang_seq (rs : list Re.regex) (pos : nat) (w rest : string) : Prop :=
  match rs with
  | [] => w = ""
  | r :: rs' =>
      exists w1 w2, w = w1 +:+ w2
                    /\ lang r pos w1 (w2 +:+ rest)
                    /\ lang_seq rs' (pos + String.length w1)%nat w2 rest
  end.

(** What the matcher finds is in the language of the pattern. *)
Definition sound (r : Re.regex) : Prop :=
  forall pos s c k res,
    Re.run r pos s c k = Some res ->
    exists w s' c',
      s = w +:+ s' /\ lang r pos w s'
      /\ k (pos + String.length w)%nat s' c' = Some res
      /\ (numbered_groups c -> numbered_groups c').

Definition sound_seq (rs : list Re.regex) : Prop :=
  forall pos s c k res,
    Re.run_seq rs pos s c k = Some res ->
    exists w s' c',
      s = w +:+ s' /\ lang_seq rs pos w s'
      /\ k (pos + String.length w)%nat s' c' = Some res
      /\ (numbered_groups c -> numbered_groups c').

(** Whatever is in the language of the pattern, the matcher finds a match. *)
Definition complete (r : Re.regex) : Prop :=
  forall pos w s' c k,
    lang r pos w s' ->
    (forall c', is_Some (k (pos + String.length w)%nat s' c')) ->
    is_Some (Re.run r pos (w +:+ s') c k).

Definition complete_seq (rs : list Re.regex) : Prop :=
  forall pos w s' c k,
    lang_seq rs pos w s' ->
    (forall c', is_Some (k (pos + String.length w)%nat s' c')) ->
    is_Some (Re.run_seq rs pos (w +:+ s') c k).

(** Separator text in which every character stands for itself. *)
Definition ordinary (sep : string) : bool :=
  Py.all_chars (fun c => negb (Py.mem_char c Re.special)) sep.

(** Whether the text so far ends with a space. *)
Fixpoint ends_with_space (before : bool) (s : string) : bool :=
  match s with
  | EmptyString => before
  | String c s' => ends_with_space (Ascii.eqb c " ") s'
  end.

(** ** What the further properties talk about *)







(** [t'] is [t] with directories added where there was nothing. *)
Definition adds_dirs (t t' : gmap Fs.path Fs.node) : Prop :=
  forall q, t' !! q = t !! q \/ (t !! q = None /\ t' !! q = Some Fs.Dir).

(** A computation that at most adds directories, whatever its outcome. *)
Definition only_adds_dirs {A} (m : M A) : Prop :=
  forall w r w', m w = (r, w') -> adds_dirs (tree w) (tree w').

(** A computation that adds directories and then, at most, appends one row
    to the file at [log_file]. *)
Definition adds_dirs_and_logs {A} (log_file : option Fs.path) (m : M A) : Prop :=
  forall w r w',
    m w = (r, w') ->
    adds_dirs (tree w) (tree w')
    \/ exists p t row, log_file = Some p /\ adds_dirs (tree w) t
                       /\ Fs.append_rows t p headers row = Some (tree w').

(** The log file a settings file asks for, if any. *)
Definition configured_log_file (e : env) (file : settings_file) : option Fs.path :=
  match load_config file with
  | inr cfg =>
      match cfg_log_dir cfg with
      | Some d => if Py.truthy d then log_file_of e d else None
      | None => None
      end
  | inl _ => None
  end.


(** ** A machine to run the examples on *)

Module Example.

(** The working directory is [/work], the caller's home [/home/u], the
    only zone on record is ["UTC"], and the [n]-th reading of the clock
    is [n] minutes past midnight on 7 May 2025. *)
Definition machine : env :=
  {| cwd := ["work"];
     home := fun user => if String.eqb user "" then Some (Fs.Path "/home/u") else None;
     known_zone := fun z => String.eqb z "UTC";
     clock := fun _ n =>
                {| Clock.year := 2025; Clock.month := 5; Clock.day := 7;
                   Clock.hour := 0; Clock.minute := N.of_nat n; Clock.second := 0 |} |}.

Definition empty_disk : world := {| tree := ∅; ticks := 0 |}.

(** [create_dir("data", "out", prefix=False)] *)
Definition plain : Args.t :=
  {| Args.base_name := "data"; Args.parent_dir := "out";
     Args.use_date := false; Args.use_time := false;
     Args.date_format := "%Y-%m-%d"; Args.time_format := None;
     Args.timezone := None;
     Args.prefix := false; Args.suffix := false; Args.separator := "-" |}.

(** [create_dir("data", "out", use_time=True, prefix=False)] *)
Definition timed : Args.t :=
  {| Args.base_name := "data"; Args.parent_dir := "out";
     Args.use_date := false; Args.use_time := true;
     Args.date_format := "%Y-%m-%d"; Args.time_format := None;
     Args.timezone := None;
     Args.prefix := false; Args.suffix := false; Args.separator := "-" |}.

(** [create_dir("data", "out")] *)
Definition numbered : Args.t :=
  {| Args.base_name := "data"; Args.parent_dir := "out";
     Args.use_date := false; Args.use_time := false;
     Args.date_format := "%Y-%m-%d"; Args.time_format := None;
     Args.timezone := None;
     Args.prefix := true; Args.suffix := false; Args.separator := "-" |}.

(** A settings file that sets [log_dir = ~/logs]. *)
Definition logging : settings_file := Section None None (Some "~/logs").

(** A settings file that sets [timezone = Mars/Olympus]. *)
Definition martian : settings_file := Section (Some "Mars/Olympus") None None.

End Example.

(* ===================================================================== *)
(** * Properties *)
(* ===================================================================== *)

(** ** Strings *)

Lemma append_empty_r (s : string) : s +:+ "" = s.
Proof. induction s; simpl; congruence. Qed.

Lemma append_assoc (a b c : string) : (a +:+ b) +:+ c = a +:+ b +:+ c.
Proof. induction a; simpl; congruence. Qed.

Lemma all_chars_app p (a b : string) :
  Py.all_chars p (a +:+ b) = Py.all_chars p a && Py.all_chars p b.
Proof. induction a; simpl; [reflexivity|]. rewrite IHa. apply andb_assoc. Qed.

(** ** The scan of the sibling names *)

Lemma scan_from pat names a b :
  fold_left (scan_step pat) names (a, b)
  = (N.max a (max_of (observed_prefixes pat names)),
     N.max b (max_of (observed_suffixes pat names))).
Proof.
  revert a b. induction names as [|x names IH]; intros a b; simpl.
  - unfold max_of. simpl. f_equal; lia.
  - unfold scan_step at 2, observed_prefixes, observed_suffixes. simpl.
    destruct (Re.re_match pat x) as [m|]; simpl.
    + rewrite IH. unfold observed_prefixes, observed_suffixes, max_of. simpl. f_equal; lia.
    + apply IH.
Qed.

Lemma scan_max pat names :
  scan pat names
  = (max_of (observed_prefixes pat names), max_of (observed_suffixes pat names)).
Proof. unfold scan. rewrite scan_from. f_equal; lia. Qed.

Lemma max_of_app l1 l2 : max_of (l1 ++ l2) = N.max (max_of l1) (max_of l2).
Proof.
  unfold max_of. induction l1 as [|x l1 IH]; simpl; [lia|]. rewrite IH. lia.
Qed.

Lemma max_of_bound l : Forall (fun t => t <= max_of l) l.
Proof.
  induction l as [|x l IH]; constructor; unfold max_of in *; simpl; [lia|].
  eapply Forall_impl; [exact IH|]. simpl. intros; lia.
Qed.

Lemma max_of_perm l1 l2 : l1 ≡ₚ l2 -> max_of l1 = max_of l2.
Proof.
  unfold max_of. induction 1; simpl; lia.
Qed.

Lemma observed_prefixes_perm pat l1 l2 :
  l1 ≡ₚ l2 -> observed_prefixes pat l1 ≡ₚ observed_prefixes pat l2.
Proof. intros H. unfold observed_prefixes. by rewrite H. Qed.

Lemma observed_suffixes_perm pat l1 l2 :
  l1 ≡ₚ l2 -> observed_suffixes pat l1 ≡ₚ observed_suffixes pat l2.
Proof. intros H. unfold observed_suffixes. by rewrite H. Qed.

Lemma scan_perm pat l1 l2 : l1 ≡ₚ l2 -> scan pat l1 = scan pat l2.
Proof.
  intros H. rewrite !scan_max.
  f_equal; apply max_of_perm;
    [by apply observed_prefixes_perm | by apply observed_suffixes_perm].
Qed.

Lemma choose_name_eq prefix suffix sep base names pat :
  Re.pattern sep base = Some pat ->
  choose_name prefix suffix sep base names
  = Some (new_dir_name prefix suffix sep base
            (max_of (observed_prefixes pat names))
            (max_of (observed_suffixes pat names))).
Proof. intros H. unfold choose_name. rewrite H, scan_max. reflexivity. Qed.

Lemma append_same_l (s t : string) : s +:+ t = s <-> t = "".
Proof.
  split; [|intros ->; apply append_empty_r].
  induction s as [|c s IH]; simpl; [auto|]. intros H. injection H. exact IH.
Qed.

(** ** The number put on the new name *)

(** C6. With [prefix=True] and [suffix=True] the new name is
    [<n><sep><dir_base><sep><n>]: the same number [n] on both ends, and [n]
    is one more than the greatest of all prefix and suffix numbers seen on
    the sibling names that match the pattern for this [dir_base]. *)
Theorem both_ends_same_number sep base names pat :
  Re.pattern sep base = Some pat ->
  let n := max_of (observed_prefixes pat names ++ observed_suffixes pat names) + 1 in
  choose_name true true sep base names
  = Some (Py.str n +:+ sep +:+ base +:+ sep +:+ Py.str n).
Proof.
  intros Hpat n. rewrite (choose_name_eq _ _ _ _ _ _ Hpat).
  unfold new_dir_name. simpl. subst n. rewrite max_of_app. reflexivity.
Qed.

Lemma both_ends_same_number_witness :
  exists pat, Re.pattern "-" "data" = Some pat
              /\ choose_name true true "-" "data" ["data-5"; "2-data"; "x"]
                 = Some "6-data-6".
Proof.
  eexists. split; [reflexivity|].
  exact (both_ends_same_number "-" "data" ["data-5"; "2-data"; "x"] _ eq_refl).
Defined.

(** C1, as stated, fails: with only a prefix requested the next prefix
    number is taken, whatever suffix numbers the siblings carry.  Beside
    ["data-5"] the new name is ["1-data"], and 1 is not above the observed
    tag 5. *)
Lemma tag_not_above_other_kind :
  exists pat, Re.pattern "-" "data" = Some pat
    /\ choose_name true false "-" "data" ["data-5"] = Some (Py.str 1 +:+ "-" +:+ "data")
    /\ 5 ∈ observed_prefixes pat ["data-5"] ++ observed_suffixes pat ["data-5"]
    /\ ~ 5 < 1.
Proof.
  eexists. split; [reflexivity|]. split; [reflexivity|]. split; [|lia].
  vm_compute. apply list_elem_of_In. simpl. auto.
Qed.

(** C1, amended. The new name is a function of the set of sibling names
    (their order does not matter), and its number is strictly above every
    observed number of the kind requested: above every prefix number with
    [prefix] alone, above every suffix number with [suffix] alone, above
    every prefix and suffix number with both. *)
Theorem tag_above_observed_of_same_kind sep base names pat :
  Re.pattern sep base = Some pat ->
  (forall prefix suffix names',
      names ≡ₚ names' ->
      choose_name prefix suffix sep base names' = choose_name prefix suffix sep base names)
  /\ (exists n, choose_name true false sep base names = Some (Py.str n +:+ sep +:+ base)
                /\ Forall (fun t => t < n) (observed_prefixes pat names))
  /\ (exists n, choose_name false true sep base names = Some (base +:+ sep +:+ Py.str n)
                /\ Forall (fun t => t < n) (observed_suffixes pat names))
  /\ (exists n, choose_name true true sep base names
                = Some (Py.str n +:+ sep +:+ base +:+ sep +:+ Py.str n)
                /\ Forall (fun t => t < n)
                     (observed_prefixes pat names ++ observed_suffixes pat names)).
Proof.
  intros Hpat. repeat split.
  - intros prefix suffix names' Hperm. unfold choose_name. rewrite Hpat.
    by rewrite (scan_perm pat _ _ Hperm).
  - eexists. split; [rewrite (choose_name_eq _ _ _ _ _ _ Hpat); reflexivity|].
    eapply Forall_impl; [apply max_of_bound|]. simpl. intros; lia.
  - eexists. split; [rewrite (choose_name_eq _ _ _ _ _ _ Hpat); reflexivity|].
    eapply Forall_impl; [apply max_of_bound|]. simpl. intros; lia.
  - eexists. split; [rewrite (choose_name_eq _ _ _ _ _ _ Hpat); reflexivity|].
    rewrite <- max_of_app.
    eapply Forall_impl; [apply max_of_bound|]. simpl. intros; lia.
Qed.

Lemma tag_above_observed_of_same_kind_witness :
  exists pat, Re.pattern "-" "data" = Some pat
    /\ exists n, choose_name true false "-" "data" ["data-5"; "2-data"]
                 = Some (Py.str n +:+ "-" +:+ "data")
                 /\ Forall (fun t => t < n) (observed_prefixes pat ["data-5"; "2-data"]).
Proof.
  eexists. split; [reflexivity|].
  exact (proj1 (proj2 (tag_above_observed_of_same_kind
                         "-" "data" ["data-5"; "2-data"] _ eq_refl))).
Defined.

(** C3, as stated, fails: the separator stays in the name.  In an empty
    parent, with the default separator, the name is ["1-"]. *)
Lemma empty_base_keeps_separator :
  choose_name true false "-" (dir_base "" "" "-") [] = Some "1-"
  /\ ~ number "1-".
Proof.
  split; [reflexivity|]. intros [_ H]. vm_compute in H. discriminate.
Qed.

(** C3, amended. With an empty [base_name] and no timestamp [dir_base] is
    empty and the new name is made of the number and the separator:
    [<n><sep>] with a prefix, [<sep><n>] with a suffix, [<n><sep><sep><n>]
    with both.  It is the number alone exactly when the separator is
    empty. *)
Theorem empty_base_name sep names pat :
  Re.pattern sep "" = Some pat ->
  let mp := max_of (observed_prefixes pat names) in
  let ms := max_of (observed_suffixes pat names) in
  dir_base "" "" sep = ""
  /\ choose_name true false sep (dir_base "" "" sep) names = Some (Py.str (mp + 1) +:+ sep)
  /\ choose_name false true sep (dir_base "" "" sep) names = Some (sep +:+ Py.str (ms + 1))
  /\ choose_name true true sep (dir_base "" "" sep) names
     = Some (Py.str (N.max mp ms + 1) +:+ sep +:+ sep +:+ Py.str (N.max mp ms + 1))
  /\ (Py.str (mp + 1) +:+ sep = Py.str (mp + 1) <-> sep = "").
Proof.
  intros Hpat mp ms. change (dir_base "" "" sep) with "".
  rewrite !(choose_name_eq _ _ _ _ _ _ Hpat). unfold new_dir_name. simpl.
  rewrite append_empty_r. repeat split; try reflexivity; apply append_same_l.
Qed.

Lemma empty_base_name_witness :
  exists pat, Re.pattern "-" "" = Some pat
    /\ choose_name true true "-" (dir_base "" "" "-") ["1-"; "-4"] = Some "5--5".
Proof.
  eexists. split; [reflexivity|].
  exact (proj1 (proj2 (proj2 (proj2 (empty_base_name "-" ["1-"; "-4"] _ eq_refl))))).
Defined.

(** ** [str] and [int] *)

Lemma string_of_uint_digits d :
  Py.all_chars Py.is_digit (NilEmpty.string_of_uint d) = true.
Proof. induction d; simpl; auto. Qed.

Lemma str_number n : number (Py.str n).
Proof.
  unfold number, Py.str, NilZero.string_of_uint.
  destruct (N.to_uint n) eqn:E; split; simpl;
    try discriminate; try reflexivity; apply string_of_uint_digits.
Qed.

Lemma to_uint_normal n : Decimal.unorm (N.to_uint n) = N.to_uint n.
Proof.
  rewrite <- DecimalN.Unsigned.to_of. by rewrite DecimalN.Unsigned.of_to.
Qed.

(** The decimal numeral of a positive number starts with a digit that is
    not zero. *)
Lemma str_head n :
  0 < n ->
  exists c t, Py.str n = String c t /\ c <> "0"%char /\ c <> " "%char
              /\ Py.all_chars Py.is_digit t = true.
Proof.
  intros Hn. unfold Py.str, NilZero.string_of_uint.
  pose proof (to_uint_normal n) as Hnorm.
  assert (Hnz : N.to_uint n <> Decimal.zero).
  { destruct n as [|p]; [lia|]. apply DecimalPos.Unsigned.to_uint_nonzero. }
  destruct (N.to_uint n) as [|d|d|d|d|d|d|d|d|d|d] eqn:E.
  - exfalso. revert Hnorm. apply unorm_nonnil.
  - exfalso. unfold Decimal.unorm in Hnorm.
    destruct (Decimal.nzhead (Decimal.D0 d)) eqn:Hh;
      try (rewrite <- Hh in Hnorm; revert Hnorm; apply nzhead_nonzero).
    apply Hnz. symmetry. exact Hnorm.
  - eexists _, _. simpl. repeat split; try discriminate. apply string_of_uint_digits.
  - eexists _, _. simpl. repeat split; try discriminate. apply string_of_uint_digits.
  - eexists _, _. simpl. repeat split; try discriminate. apply string_of_uint_digits.
  - eexists _, _. simpl. repeat split; try discriminate. apply string_of_uint_digits.
  - eexists _, _. simpl. repeat split; try discriminate. apply string_of_uint_digits.
  - eexists _, _. simpl. repeat split; try discriminate. apply string_of_uint_digits.
  - eexists _, _. simpl. repeat split; try discriminate. apply string_of_uint_digits.
  - eexists _, _. simpl. repeat split; try discriminate. apply string_of_uint_digits.
  - eexists _, _. simpl. repeat split; try discriminate. apply string_of_uint_digits.
Qed.


(** ** [lstrip] *)

Lemma lstrip_zeros s :
  exists k, s = zeros k +:+ Py.lstrip "0" s
            /\ Py.lstrip "0" s = strip_one_zero (Py.lstrip "0" s).
Proof.
  induction s as [|c s (k & Hk & Hs)].
  - exists O. split; reflexivity.
  - simpl. destruct (Ascii.eqb_spec c "0") as [->|Hc]; simpl.
    + exists (S k). simpl. split; [by rewrite <- Hk | exact Hs].
    + exists O. split; [reflexivity|].
      destruct c as [[|] [|] [|] [|] [|] [|] [|] [|]]; try reflexivity.
      by destruct Hc.
Qed.

Ltac hour_cases r :=
  let H := fresh in
  assert (H : r = 0 \/ r = 1 \/ r = 2 \/ r = 3 \/ r = 4 \/ r = 5 \/ r = 6
              \/ r = 7 \/ r = 8 \/ r = 9 \/ r = 10 \/ r = 11) by lia;
  repeat (destruct H as [H|H]); rewrite H.

(** On the hour of the 12-hour clock, stripping zeros strips at most one. *)
Lemma lstrip_hour12 h rest :
  Py.lstrip "0" (Clock.pad2 (Clock.hour12 h) +:+ rest)
  = strip_one_zero (Clock.pad2 (Clock.hour12 h) +:+ rest).
Proof.
  unfold Clock.hour12.
  pose proof (N.mod_lt h 12 ltac:(lia)) as Hlt.
  set (r := h mod 12) in *. clearbody r.
  hour_cases r; reflexivity.
Qed.

(** C4, as stated, fails: with [time_format = "%H%M"] at 00:05 the time
    string ["0005"] loses its three zeros, not one. *)
Lemma lstrip_takes_every_zero :
  let now := {| Clock.year := 2025; Clock.month := 5; Clock.day := 17;
                Clock.hour := 0; Clock.minute := 5; Clock.second := 0 |} in
  Clock.strftime "%H%M" now = Some "0005"
  /\ time_str "%H%M" now = Some "5"
  /\ strip_one_zero "0005" = "005".
Proof. repeat split. Qed.

(** C4, amended. The time string is the formatted time without its
    leading zeros, all of them.  With the formats the code itself picks
    ([%I:%M%p], [%I:%M:%S%p]) that is at most one zero, the one of the
    hour: ["05:08AM"] becomes ["5:08AM"] and nothing more is stripped. *)
Theorem time_str_strips_leading_zeros :
  (forall time_format now s,
      Clock.strftime time_format now = Some s ->
      exists k t, s = zeros k +:+ t
                  /\ time_str time_format now = Some t
                  /\ t = strip_one_zero t)
  /\ (forall cfg now,
         exists s, Clock.strftime (resolve_time_format None cfg) now = Some s
                   /\ time_str (resolve_time_format None cfg) now = Some (strip_one_zero s)).
Proof.
  split.
  - intros fmt now s Hs. destruct (lstrip_zeros s) as (k & Hk & Ht).
    exists k, (Py.lstrip "0" s). unfold time_str. rewrite Hs. auto.
  - intros cfg now. unfold resolve_time_format, time_str.
    destruct (time_format_with_seconds cfg); eexists;
      (split; [reflexivity|]); simpl; f_equal; apply lstrip_hour12.
Qed.

Lemma time_str_strips_leading_zeros_witness :
  let now := {| Clock.year := 2025; Clock.month := 5; Clock.day := 17;
                Clock.hour := 5; Clock.minute := 8; Clock.second := 0 |} in
  Clock.strftime "%I:%M%p" now = Some "05:08AM"
  /\ exists k t, "05:08AM" = zeros k +:+ t
                 /\ time_str "%I:%M%p" now = Some t /\ t = strip_one_zero t.
Proof.
  intros now. split; [reflexivity|].
  exact (proj1 time_str_strips_leading_zeros "%I:%M%p" now "05:08AM" eq_refl).
Defined.

(** ** [replace(" 0", " ")] *)

Lemma drop_zero_not_zero c s :
  c <> "0"%char ->
  drop_zero_after_space true (String c s) = drop_zero_after_space false (String c s).
Proof.
  intros Hc. simpl. destruct (Ascii.eqb_spec c "0"); [contradiction|reflexivity].
Qed.

(** [replace(" 0", " ")] drops every zero that follows a space, and
    nothing else. *)
Lemma replace_space_zero s :
  Py.replace " 0" " " s = drop_zero_after_space false s.
Proof.
  unfold Py.replace.
  enough (H : Py.replace_from " 0" " " 0 s = drop_zero_after_space false s
              /\ forall c, Py.replace_from " 0" " " 0 (String c s)
                           = drop_zero_after_space false (String c s)) by apply H.
  induction s as [|d s [IH1 IH2]].
  - split; [reflexivity|]. intros c. simpl.
    destruct (Ascii.eqb " " c); reflexivity.
  - split; [apply IH2|]. intros c.
    change (Py.replace_from " 0" " " 0 (String c (String d s)))
      with (if Ascii.eqb " " c && (Ascii.eqb "0" d && true)
            then " " +:+ Py.replace_from " 0" " " 0 s
            else String c (Py.replace_from " 0" " " 0 (String d s))).
    change (drop_zero_after_space false (String c (String d s)))
      with (String c (drop_zero_after_space (Ascii.eqb c " ") (String d s))).
    rewrite IH1, IH2.
    destruct (Ascii.eqb_spec " " c) as [<-|Hc]; simpl.
    + destruct (Ascii.eqb_spec "0" d) as [<-|Hd]; simpl; [reflexivity|].
      destruct (Ascii.eqb_spec d "0"); [congruence|reflexivity].
    + destruct (Ascii.eqb_spec c " "); [congruence|reflexivity].
Qed.

Lemma drop_zero_app b s1 s2 :
  drop_zero_after_space b (s1 +:+ s2)
  = drop_zero_after_space b s1 +:+ drop_zero_after_space (ends_with_space b s1) s2.
Proof.
  revert b. induction s1 as [|c s1 IH]; intros b; simpl; [reflexivity|].
  destruct (b && Ascii.eqb c "0") eqn:E.
  - rewrite IH. apply andb_prop in E as [_ E]. apply Ascii.eqb_eq in E as ->. reflexivity.
  - rewrite IH. reflexivity.
Qed.

Lemma digit_not_space c : Py.is_digit c = true -> Ascii.eqb c " " = false.
Proof.
  intros H. destruct (Ascii.eqb_spec c " ") as [->|]; [discriminate|reflexivity].
Qed.

(** A run of digits after something that is not a space is left alone. *)
Lemma drop_zero_digits t :
  Py.all_chars Py.is_digit t = true ->
  drop_zero_after_space false t = t /\ ends_with_space false t = false.
Proof.
  induction t as [|c t IH]; simpl; [auto|].
  intros [Hc Ht]%andb_prop. rewrite (digit_not_space c Hc).
  destruct (IH Ht) as [-> ->]. auto.
Qed.

(** A number after a space loses its leading zero only. *)
Lemma drop_zero_str n :
  0 < n ->
  drop_zero_after_space true (Py.str n) = Py.str n
  /\ ends_with_space true (Py.str n) = false.
Proof.
  intros Hn. destruct (str_head n Hn) as (c & t & -> & Hc0 & Hcs & Ht).
  simpl. destruct (Ascii.eqb_spec c "0"); [contradiction|].
  destruct (Ascii.eqb_spec c " "); [contradiction|].
  destruct (drop_zero_digits t Ht) as [-> ->]. auto.
Qed.

Lemma drop_zero_pad2 n :
  1 <= n < 100 ->
  drop_zero_after_space true (Clock.pad2 n) = Py.str n
  /\ ends_with_space true (Clock.pad2 n) = false.
Proof.
  intros Hn. unfold Clock.pad2. destruct (N.ltb_spec n 10).
  - assert (H1 : drop_zero_after_space true (String "0" (Py.str n))
                 = drop_zero_after_space false (Py.str n)) by reflexivity.
    assert (H2 : ends_with_space true (String "0" (Py.str n))
                 = ends_with_space false (Py.str n)) by reflexivity.
    rewrite H1, H2. apply drop_zero_digits, str_number.
  - apply drop_zero_str. lia.
Qed.

Lemma pad2_keeps n :
  drop_zero_after_space false (Clock.pad2 n) = Clock.pad2 n
  /\ ends_with_space false (Clock.pad2 n) = false.
Proof.
  apply drop_zero_digits. unfold Clock.pad2.
  destruct (n <? 10); simpl; apply str_number.
Qed.

Lemma month_abbr_keeps m b :
  1 <= m <= 12 ->
  drop_zero_after_space b (Clock.month_abbr m) = Clock.month_abbr m
  /\ ends_with_space b (Clock.month_abbr m) = false.
Proof.
  intros Hm. unfold Clock.month_abbr.
  assert (H : (N.to_nat (m - 1) < 12)%nat) by lia.
  set (k := N.to_nat (m - 1)) in *. clearbody k.
  do 12 (destruct k as [|k]; [destruct b; split; reflexivity|]). lia.
Qed.

Lemma am_pm_keeps h :
  drop_zero_after_space true (Clock.am_pm h) = Clock.am_pm h.
Proof. unfold Clock.am_pm. destruct (h <? 12); reflexivity. Qed.

Lemma hour12_range h : 1 <= Clock.hour12 h < 100.
Proof.
  unfold Clock.hour12. cbv zeta. pose proof (N.mod_lt h 12 ltac:(lia)) as Hlt.
  set (r := h mod 12) in *. clearbody r.
  destruct (N.eqb_spec r 0); lia.
Qed.

Lemma valid_bounds now :
  Clock.valid now = true ->
  1000 <= Clock.year now /\ 1 <= Clock.month now <= 12 /\ 1 <= Clock.day now <= 31.
Proof.
  unfold Clock.valid. rewrite !andb_true_iff, !N.leb_le, !N.ltb_lt. lia.
Qed.

(** ** The timestamp of a log entry *)

Lemma log_format_fields now :
  Clock.strftime "%b %d, %Y at %I:%M %p" now
  = Some (Clock.month_abbr (Clock.month now) +:+ " " +:+ Clock.pad2 (Clock.day now) +:+ ", "
          +:+ Py.str (Clock.year now) +:+ " at "
          +:+ Clock.pad2 (Clock.hour12 (Clock.hour now)) +:+ ":"
          +:+ Clock.pad2 (Clock.minute now) +:+ " " +:+ Clock.am_pm (Clock.hour now)).
Proof. simpl. rewrite append_empty_r. reflexivity. Qed.

Lemma creation_time_fields now :
  Clock.valid now = true ->
  creation_time now
  = Some (Clock.month_abbr (Clock.month now) +:+ " " +:+ Py.str (Clock.day now) +:+ ", "
          +:+ Py.str (Clock.year now) +:+ " at "
          +:+ Py.str (Clock.hour12 (Clock.hour now)) +:+ ":"
          +:+ Clock.pad2 (Clock.minute now) +:+ " " +:+ Clock.am_pm (Clock.hour now)).
Proof.
  intros (Hy & Hm & Hd)%valid_bounds. unfold creation_time.
  rewrite log_format_fields. unfold option_map. rewrite replace_space_zero. f_equal.
  rewrite drop_zero_app.
  destruct (month_abbr_keeps (Clock.month now) false Hm) as [-> ->]. f_equal.
  simpl. f_equal.
  rewrite drop_zero_app.
  destruct (drop_zero_pad2 (Clock.day now) ltac:(lia)) as [-> ->]. f_equal.
  simpl. do 2 f_equal.
  rewrite drop_zero_app.
  destruct (drop_zero_str (Clock.year now) ltac:(lia)) as [-> ->]. f_equal.
  simpl. do 4 f_equal.
  rewrite drop_zero_app.
  destruct (drop_zero_pad2 _ (hour12_range (Clock.hour now))) as [-> ->]. f_equal.
  simpl. f_equal.
  rewrite drop_zero_app.
  destruct (pad2_keeps (Clock.minute now)) as [-> ->]. f_equal.
  simpl. f_equal. apply am_pm_keeps.
Qed.

(** C10. The timestamp of a log entry is the formatted time in which every
    [0] that follows a space is dropped.  The format puts a space before
    the day of the month and before the hour, so both lose their leading
    zero: where [strftime] gives the two-digit fields [%d] and [%I], the
    entry has the plain numbers (["May 07, 2025 at 08:08 AM"] is logged
    as ["May 7, 2025 at 8:08 AM"]). *)
Theorem log_timestamp_drops_zero_after_space now :
  Clock.valid now = true ->
  creation_time now
  = option_map (drop_zero_after_space false)
      (Clock.strftime "%b %d, %Y at %I:%M %p" now)
  /\ Clock.strftime "%b %d, %Y at %I:%M %p" now
     = Some (Clock.month_abbr (Clock.month now) +:+ " " +:+ Clock.pad2 (Clock.day now)
             +:+ ", " +:+ Py.str (Clock.year now) +:+ " at "
             +:+ Clock.pad2 (Clock.hour12 (Clock.hour now)) +:+ ":"
             +:+ Clock.pad2 (Clock.minute now) +:+ " " +:+ Clock.am_pm (Clock.hour now))
  /\ creation_time now
     = Some (Clock.month_abbr (Clock.month now) +:+ " " +:+ Py.str (Clock.day now)
             +:+ ", " +:+ Py.str (Clock.year now) +:+ " at "
             +:+ Py.str (Clock.hour12 (Clock.hour now)) +:+ ":"
             +:+ Clock.pad2 (Clock.minute now) +:+ " " +:+ Clock.am_pm (Clock.hour now)).
Proof.
  intros Hv. split; [|split].
  - unfold creation_time, option_map.
    destruct (Clock.strftime _ now); [|reflexivity].
    by rewrite replace_space_zero.
  - apply log_format_fields.
  - by apply creation_time_fields.
Qed.

Lemma log_timestamp_drops_zero_after_space_witness :
  let now := {| Clock.year := 2025; Clock.month := 5; Clock.day := 7;
                Clock.hour := 8; Clock.minute := 8; Clock.second := 0 |} in
  Clock.strftime "%b %d, %Y at %I:%M %p" now = Some "May 07, 2025 at 08:08 AM"
  /\ creation_time now = Some "May 7, 2025 at 8:08 AM".
Proof.
  intros now.
  exact (proj2 (log_timestamp_drops_zero_after_space now eq_refl)).
Defined.

(** ** The time zone *)

Lemma resolve_timezone_supplied e tz cfg :
  resolve_timezone e tz cfg
  = match supplied_timezone tz cfg with
    | Some zone => pytz_timezone e zone
    | None => ret Local
    end.
Proof.
  unfold resolve_timezone, supplied_timezone.
  destruct tz as [[|c z]|]; try reflexivity;
    destruct (cfg_timezone cfg) as [[|c' z']|]; reflexivity.
Qed.

(** C5. A call whose time zone identifier (the argument, or the configured
    one when the argument is absent) is unknown raises
    [UnknownTimeZoneError] and leaves the world as it was: no parent
    directory, no target directory, no log entry. *)
Theorem invalid_timezone_raises_before_any_change e file a cfg w zone :
  load_config file = inr cfg ->
  supplied_timezone (Args.timezone a) cfg = Some zone ->
  known_zone e zone = false ->
  create_dir e file a w = (Raised UnknownTimeZoneError, w).
Proof.
  intros Hcfg Hzone Hunknown. unfold create_dir, bind at 1.
  rewrite Hcfg. simpl. unfold bind at 1.
  rewrite resolve_timezone_supplied, Hzone. unfold pytz_timezone.
  rewrite Hunknown. reflexivity.
Qed.

Lemma invalid_timezone_raises_before_any_change_witness :
  create_dir Example.machine Example.martian Example.numbered Example.empty_disk
  = (Raised UnknownTimeZoneError, Example.empty_disk).
Proof.
  exact (invalid_timezone_raises_before_any_change
           Example.machine Example.martian Example.numbered _ Example.empty_disk
           "Mars/Olympus" eq_refl eq_refl eq_refl).
Defined.

(** A settings file that does not load stops the call earlier still. *)
Lemma config_error_raises_before_any_change e file a w err :
  load_config file = inl err ->
  create_dir e file a w = (Raised err, w).
Proof. intros H. unfold create_dir, bind. rewrite H. reflexivity. Qed.

(** C9. An empty [timezone] argument counts as no argument: the configured
    zone is used when there is one (a nonempty string), the local zone
    otherwise, and the empty string itself is never looked up.  The whole
    call behaves as the call without the argument. *)
Theorem empty_timezone_is_no_timezone e file a cfg :
  resolve_timezone e (Some "") cfg = resolve_timezone e None cfg
  /\ resolve_timezone e (Some "") cfg
     = match cfg_timezone cfg with
       | Some (String c z) => pytz_timezone e (String c z)
       | _ => ret Local
       end
  /\ create_dir e file (with_timezone a (Some ""))
     = create_dir e file (with_timezone a None).
Proof. repeat split. Qed.

(** ** The pattern *)

(** C2, where the code departs from it: the separator is pasted into the
    pattern unescaped, so a separator ["."] is read as "any character".
    The name ["3xdata"] is not of the shape [<number>.data], yet the
    pattern for separator ["."] and [dir_base] ["data"] matches it with
    prefix number 3, and the next name becomes ["4.data"]. *)
Theorem separator_is_read_as_pattern_text :
  exists pat,
    Re.pattern "." "data" = Some pat
    /\ Re.re_match pat "3xdata" = Some {| Re.group1 := Some "3"; Re.group2 := None |}
    /\ ~ tagged_name "." "data" "3xdata"
    /\ choose_name true false "." "data" ["3xdata"] = Some "4.data".
Proof.
  eexists. split; [reflexivity|]. split; [reflexivity|]. split; [|reflexivity].
  intros (pre & suf & Hname & Hpre & _).
  destruct Hpre as [->|(n & [Hne Hdig] & ->)]; [discriminate|].
  destruct n as [|c [|c' n]]; [congruence|discriminate|].
  simpl in Hname. inversion Hname; subst. discriminate.
Qed.

(** ** The directory tree *)

Lemma mkdir_walk_keeps t cur names t' q x :
  Fs.mkdir_walk t cur names = Some t' -> t !! q = Some x -> t' !! q = Some x.
Proof.
  revert t cur. induction names as [|n rest IH]; intros t cur; cbn [Fs.mkdir_walk visited].
  - by intros [= <-].
  - destruct (String.eqb n ".."); [apply IH|].
    destruct (t !! (cur ++ [n])) as [[|rows]|] eqn:E; [apply IH|discriminate|].
    intros Hw Hq. eapply IH; [exact Hw|].
    rewrite lookup_insert_ne; [done|]. intros Heq. subst q. congruence.
Qed.

(** A walk changes the tree only by adding directories where there was
    nothing. *)
Lemma mkdir_walk_adds_dirs t cur names t' q :
  Fs.mkdir_walk t cur names = Some t' ->
  t' !! q = t !! q \/ (t !! q = None /\ t' !! q = Some Fs.Dir).
Proof.
  revert t cur. induction names as [|n rest IH]; intros t cur; cbn [Fs.mkdir_walk visited].
  - intros [= <-]. by left.
  - destruct (String.eqb n ".."); [apply IH|].
    destruct (t !! (cur ++ [n])) as [[|rows]|] eqn:E; [apply IH|discriminate|].
    intros Hw. destruct (decide (cur ++ [n] = q)) as [<-|Hne].
    + right. split; [done|].
      eapply mkdir_walk_keeps; [exact Hw|]. apply lookup_insert_eq.
    + destruct (IH _ _ Hw) as [H|[H1 H2]]; rewrite lookup_insert_ne in *; auto.
Qed.

Lemma mkdir_walk_visited t cur names t' :
  Fs.mkdir_walk t cur names = Some t' ->
  Forall (fun q => t' !! q = Some Fs.Dir) (visited cur names).
Proof.
  revert t cur. induction names as [|n rest IH]; intros t cur; cbn [Fs.mkdir_walk visited].
  - constructor.
  - destruct (String.eqb n ".."); [apply IH|].
    destruct (t !! (cur ++ [n])) as [[|rows]|] eqn:E; [|discriminate|]; intros Hw.
    + constructor; [|by eapply IH]. by eapply mkdir_walk_keeps.
    + constructor; [|by eapply IH].
      eapply mkdir_walk_keeps; [exact Hw|]. apply lookup_insert_eq.
Qed.

(** Where every directory on the way exists, [mkdir] changes nothing. *)
Lemma mkdir_walk_noop t cur names :
  Forall (fun q => t !! q = Some Fs.Dir) (visited cur names) ->
  Fs.mkdir_walk t cur names = Some t.
Proof.
  revert cur. induction names as [|n rest IH]; intros cur; cbn [Fs.mkdir_walk visited]; [done|].
  destruct (String.eqb n ".."); [apply IH|].
  intros [Hq Hrest]%Forall_cons. rewrite Hq. by apply IH.
Qed.

Lemma mkdir_walk_dirs_kept t cur names t' :
  Fs.mkdir_walk t cur names = Some t' -> dirs_kept t t'.
Proof. intros H q. by apply mkdir_walk_keeps with (1 := H). Qed.

Lemma mkdir_walk_again t cur names t' t'' :
  Fs.mkdir_walk t cur names = Some t' -> dirs_kept t' t'' ->
  Fs.mkdir_walk t'' cur names = Some t''.
Proof.
  intros Hw Hk. apply mkdir_walk_noop.
  eapply Forall_impl; [by eapply mkdir_walk_visited|]. exact (fun q => Hk q).
Qed.

Lemma dirs_kept_refl t : dirs_kept t t.
Proof. by intros q. Qed.

Lemma dirs_kept_trans t1 t2 t3 : dirs_kept t1 t2 -> dirs_kept t2 t3 -> dirs_kept t1 t3.
Proof. intros H1 H2 q Hq. by apply H2, H1. Qed.

(** Appending to the log file touches that file only. *)
Lemma append_rows_other t p header row t' q :
  Fs.append_rows t p header row = Some t' -> q <> p -> t' !! q = t !! q.
Proof.
  unfold Fs.append_rows. intros H Hq.
  destruct (t !! p) as [[|rows]|]; try discriminate;
    injection H as <-; by rewrite lookup_insert_ne.
Qed.

Lemma append_rows_file t p header row t' :
  Fs.append_rows t p header row = Some t' ->
  t' !! p = Some (Fs.File (match t !! p with
                           | Some (Fs.File rows) => rows ++ [row]
                           | _ => [header; row]
                           end)).
Proof.
  unfold Fs.append_rows. intros H.
  destruct (t !! p) as [[|rows]|]; try discriminate;
    injection H as <-; apply lookup_insert_eq.
Qed.

Lemma append_rows_same_dirs t p header row t' :
  Fs.append_rows t p header row = Some t' -> same_dirs t t'.
Proof.
  intros H q. destruct (decide (q = p)) as [->|Hq].
  - rewrite (append_rows_file _ _ _ _ _ H). unfold Fs.append_rows in H.
    destruct (t !! p) as [[|rows]|]; try discriminate; split; discriminate.
  - by rewrite (append_rows_other _ _ _ _ _ _ H Hq).
Qed.

(** Once written, the log file can be appended to. *)
Lemma append_rows_again t p header row rows :
  t !! p = Some (Fs.File rows) ->
  Fs.append_rows t p header row = Some (<[p := Fs.File (rows ++ [row])]> t).
Proof. unfold Fs.append_rows. by intros ->. Qed.

(** ** Running the calls *)

Lemma world_eta w : {| tree := tree w; ticks := ticks w |} = w.
Proof. by destruct w. Qed.

Lemma bind_returned {A B} (m : M A) (f : A -> M B) w b w' :
  bind m f w = (Returned b, w') ->
  exists a w1, m w = (Returned a, w1) /\ f a w1 = (Returned b, w').
Proof.
  unfold bind. destruct (m w) as [[a|ex|] w1]; try discriminate. eauto.
Qed.

Lemma bind_run {A B} (m : M A) (f : A -> M B) w a w1 :
  m w = (Returned a, w1) -> bind m f w = f a w1.
Proof. unfold bind. by intros ->. Qed.

Lemma of_option_returned {A} (o : option A) w a w' :
  of_option o w = (Returned a, w') -> o = Some a /\ w' = w.
Proof. destruct o; simpl; [|discriminate]. by intros [= -> ->]. Qed.

Lemma resolve_timezone_returned e tz cfg w z w' :
  resolve_timezone e tz cfg w = (Returned z, w') ->
  w' = w /\ forall w2, resolve_timezone e tz cfg w2 = (Returned z, w2).
Proof.
  rewrite resolve_timezone_supplied.
  destruct (supplied_timezone tz cfg) as [zone|]; unfold pytz_timezone.
  - destruct (known_zone e zone); [|discriminate]. by intros [= <- <-].
  - by intros [= <- <-].
Qed.

Lemma mkdir_returned e p w u w' :
  mkdir e p w = (Returned u, w') ->
  Fs.mkdir_walk (tree w) (start_of e p) (Fs.parts p) = Some (tree w')
  /\ ticks w' = ticks w.
Proof.
  unfold mkdir. destruct (Fs.mkdir_walk _ _ _); [|discriminate].
  by intros [= _ <-].
Qed.

(** [mkdir] on a path under which every directory is there already. *)
Lemma mkdir_again e p t t1 w2 :
  Fs.mkdir_walk t (start_of e p) (Fs.parts p) = Some t1 ->
  dirs_kept t1 (tree w2) ->
  mkdir e p w2 = (Returned tt, w2).
Proof.
  intros H Hk. unfold mkdir.
  rewrite (mkdir_walk_again _ _ _ _ _ H Hk). by rewrite world_eta.
Qed.

Lemma make_timestamp_returned e tz a tf w s w' :
  make_timestamp e tz a tf w = (Returned s, w') ->
  tree w' = tree w
  /\ forall w2,
       Args.use_date a || Args.use_time a = false
       \/ clock e tz (ticks w2) = clock e tz (ticks w) ->
       exists w2', make_timestamp e tz a tf w2 = (Returned s, w2')
                   /\ tree w2' = tree w2.
Proof.
  unfold make_timestamp. destruct (Args.use_date a || Args.use_time a) eqn:Hflags.
  - intros (now & w1 & Hnow & Hs)%bind_returned.
    unfold datetime_now in Hnow. injection Hnow as <- <-.
    apply of_option_returned in Hs as [Hs ->]. split; [reflexivity|].
    intros w2 [|Hclock]; [discriminate|].
    eexists. unfold bind, datetime_now. rewrite Hclock, Hs. simpl. eauto.
  - intros [= <- <-]. split; [reflexivity|]. intros w2 _. by exists w2.
Qed.

Lemma creation_time_some now : exists s, creation_time now = Some s.
Proof. unfold creation_time. rewrite log_format_fields. simpl. eauto. Qed.

(** What a log entry that was written went through. *)
Lemma log_directory_returned e d dir_path tz w u w' :
  Py.truthy d = true ->
  log_directory e (Some d) dir_path tz w = (Returned u, w') ->
  exists log_dir_path t1 created,
    expand_home e (Fs.Path d) = Some log_dir_path
    /\ Fs.mkdir_walk (tree w) (start_of e log_dir_path) (Fs.parts log_dir_path) = Some t1
    /\ creation_time (clock e tz (ticks w)) = Some created
    /\ Fs.append_rows t1 (locate e (Fs.joinpath log_dir_path "smartdirs.log")) headers
         [created; Fs.name dir_path; absolute_str e dir_path] = Some (tree w').
Proof.
  intros Hd. unfold log_directory. rewrite Hd.
  intros (lp & w1 & Hlp & H)%bind_returned.
  unfold expanduser in Hlp. destruct (expand_home e (Fs.Path d)) as [lp'|]; [|discriminate].
  injection Hlp as -> <-.
  apply bind_returned in H as ([] & w2 & Hmk & H).
  apply mkdir_returned in Hmk as [Hmk Hticks].
  apply bind_returned in H as (now & w3 & Hnow & H).
  unfold datetime_now in Hnow. injection Hnow as <- <-.
  apply bind_returned in H as (created & w4 & Hc & H).
  apply of_option_returned in Hc as [Hc ->].
  unfold write_log in H. simpl in H.
  destruct (Fs.append_rows _ _ _ _) as [t'|] eqn:Happ; [|discriminate].
  injection H as _ <-. simpl. rewrite Hticks in Hc. eauto 10.
Qed.

(** A call that found its log directory and wrote its entry can do so
    again in any later tree that kept the directories and the file. *)
Lemma log_directory_again e d dir_path tz w2 log_dir_path t1 rows :
  Py.truthy d = true ->
  expand_home e (Fs.Path d) = Some log_dir_path ->
  Fs.mkdir_walk (tree w2) (start_of e log_dir_path) (Fs.parts log_dir_path) = Some t1 ->
  t1 !! locate e (Fs.joinpath log_dir_path "smartdirs.log") = Some (Fs.File rows) ->
  exists created,
    log_directory e (Some d) dir_path tz w2
    = (Returned tt,
       {| tree := <[locate e (Fs.joinpath log_dir_path "smartdirs.log")
                    := Fs.File (rows ++ [[created; Fs.name dir_path; absolute_str e dir_path]])]> t1;
          ticks := S (ticks w2) |}).
Proof.
  intros Hd Hlp Hmk Hfile.
  destruct (creation_time_some (clock e tz (ticks w2))) as [created Hc].
  exists created. unfold log_directory. rewrite Hd.
  unfold expanduser. rewrite Hlp. unfold bind at 1, ret.
  unfold bind at 1, mkdir. rewrite Hmk.
  unfold bind at 1, datetime_now. cbn [tree ticks].
  unfold bind at 1. rewrite Hc. unfold of_option, ret, write_log. cbn [tree ticks].
  by rewrite (append_rows_again _ _ _ _ _ Hfile).
Qed.

(** What a call that returned went through. *)
Lemma create_dir_returned e file a w p w' :
  create_dir e file a w = (Returned p, w') ->
  exists cfg tz t1 stamp w2 new_name t2,
    load_config file = inr cfg
    /\ (forall w0, resolve_timezone e (Args.timezone a) cfg w0 = (Returned tz, w0))
    /\ Fs.mkdir_walk (tree w) (start_of e (Fs.Path (Args.parent_dir a)))
         (Fs.parts (Fs.Path (Args.parent_dir a))) = Some t1
    /\ make_timestamp e tz a (resolve_time_format (Args.time_format a) cfg)
         {| tree := t1; ticks := ticks w |} = (Returned stamp, w2)
    /\ choose_name (Args.prefix a) (Args.suffix a) (Args.separator a)
         (dir_base (Args.base_name a) stamp (Args.separator a))
         (Fs.subdirs (tree w2) (locate e (Fs.Path (Args.parent_dir a)))) = Some new_name
    /\ p = Fs.joinpath (Fs.Path (Args.parent_dir a)) new_name
    /\ Fs.mkdir_walk (tree w2) (start_of e p) (Fs.parts p) = Some t2
    /\ log_directory e (cfg_log_dir cfg) p tz {| tree := t2; ticks := ticks w2 |}
       = (Returned tt, w').
Proof.
  unfold create_dir.
  intros (cfg & w0 & Hcfg & H)%bind_returned.
  destruct (load_config file) as [err|cfg'] eqn:Hload; [discriminate|].
  injection Hcfg as -> <-.
  apply bind_returned in H as (tz & w0 & Htz & H).
  apply resolve_timezone_returned in Htz as [-> Htz].
  apply bind_returned in H as ([] & wa & Hmk & H).
  apply mkdir_returned in Hmk as [Hmk Hticks].
  apply bind_returned in H as (stamp & w2 & Hstamp & H).
  apply bind_returned in H as (existing & w3 & Hex & H).
  unfold existing_dirs in Hex. injection Hex as <- <-.
  apply bind_returned in H as (new_name & w3 & Hname & H).
  apply of_option_returned in Hname as [Hname ->].
  apply bind_returned in H as ([] & wb & Hmk2 & H).
  apply mkdir_returned in Hmk2 as [Hmk2 Hticks2].
  apply bind_returned in H as ([] & wc & Hlog & H).
  injection H as <- <-.
  exists cfg, tz, (tree wa), stamp, w2, new_name, (tree wb).
  rewrite <- Hticks, <- Hticks2, !world_eta. auto 10.
Qed.

Lemma log_directory_dirs_kept e log_dir dir_path tz w u w' :
  log_directory e log_dir dir_path tz w = (Returned u, w') ->
  dirs_kept (tree w) (tree w').
Proof.
  destruct log_dir as [d|]; [|intros [= _ <-]; apply dirs_kept_refl].
  destruct (Py.truthy d) eqn:Hd.
  - intros (lp & t1 & created & _ & Hmk & _ & Happ)%log_directory_returned; [|done].
    eapply dirs_kept_trans; [by eapply mkdir_walk_dirs_kept|].
    intros q. by apply (append_rows_same_dirs _ _ _ _ _ Happ).
  - unfold log_directory. rewrite Hd. intros [= _ <-]. apply dirs_kept_refl.
Qed.

Lemma choose_name_plain sep base names new_name :
  choose_name false false sep base names = Some new_name ->
  new_name = base /\ forall names', choose_name false false sep base names' = Some base.
Proof.
  unfold choose_name. destruct (Re.pattern sep base) as [pat|]; [|discriminate].
  destruct (scan pat names). intros [= <-]. split; [reflexivity|].
  intros names'. by destruct (scan pat names').
Qed.

(** C7, amended. With [prefix=False] and [suffix=False], a call that is
    repeated with the same arguments while [dir_base] stays the same (no
    date or time is requested, or the clock reads the same) returns the
    same path and raises nothing.  The directory is there after the first
    call, and the second call creates no directory: the trees before and
    after it have the same directories. *)
Theorem repeated_plain_call_reuses_directory e file a w p w1 :
  Args.prefix a = false ->
  Args.suffix a = false ->
  (Args.use_date a || Args.use_time a = false
   \/ forall tz, clock e tz (ticks w1) = clock e tz (ticks w)) ->
  create_dir e file a w = (Returned p, w1) ->
  Forall (fun q => tree w1 !! q = Some Fs.Dir) (visited (start_of e p) (Fs.parts p))
  /\ exists w2, create_dir e file a w1 = (Returned p, w2)
                /\ same_dirs (tree w1) (tree w2).
Proof.
  intros Hprefix Hsuffix Hstamp Hcall.
  destruct (create_dir_returned _ _ _ _ _ _ Hcall)
    as (cfg & tz & t1 & stamp & wa & new_name & t2
        & Hcfg & Htz & Hmk1 & Hts & Hname & Hp & Hmk2 & Hlog).
  rewrite Hprefix, Hsuffix in Hname.
  apply choose_name_plain in Hname as [-> Hname].
  apply make_timestamp_returned in Hts as [Htree Hts]. cbn [tree ticks] in *.
  pose proof (mkdir_walk_dirs_kept _ _ _ _ Hmk2) as Hk2.
  pose proof (log_directory_dirs_kept _ _ _ _ _ _ _ Hlog) as Hk3. cbn [tree] in Hk3.
  split.
  { eapply Forall_impl; [exact (mkdir_walk_visited _ _ _ _ Hmk2)|]. exact (fun q => Hk3 q). }
  destruct (Hts w1) as (wb & Hts2 & Htree2).
  { destruct Hstamp as [|Hclock]; [by left|right]. apply Hclock. }
  assert (Hmk1' : mkdir e (Fs.Path (Args.parent_dir a)) w1 = (Returned tt, w1)).
  { apply (mkdir_again _ _ _ _ _ Hmk1).
    rewrite <- Htree. eapply dirs_kept_trans; [exact Hk2|exact Hk3]. }
  assert (Hmk2' : mkdir e p wb = (Returned tt, wb)).
  { apply (mkdir_again _ _ _ _ _ Hmk2). by rewrite Htree2. }
  assert (Hrun : forall w2, log_directory e (cfg_log_dir cfg) p tz wb = (Returned tt, w2) ->
                           create_dir e file a w1 = (Returned p, w2)).
  { intros w2 Hlog2. unfold create_dir. rewrite Hcfg. unfold lift_config.
    unfold bind at 1, ret. rewrite (bind_run _ _ _ _ _ (Htz w1)).
    rewrite (bind_run _ _ _ _ _ Hmk1'). rewrite (bind_run _ _ _ _ _ Hts2).
    unfold bind at 1, existing_dirs. rewrite Hprefix, Hsuffix, Hname.
    unfold bind at 1, of_option, ret. rewrite <- Hp.
    rewrite (bind_run _ _ _ _ _ Hmk2'). rewrite (bind_run _ _ _ _ _ Hlog2). reflexivity. }
  destruct (cfg_log_dir cfg) as [d|] eqn:Hld.
  2:{ exists wb. split; [by apply Hrun|]. intros q. by rewrite Htree2. }
  destruct (Py.truthy d) eqn:Hd.
  2:{ exists wb. split; [apply Hrun; unfold log_directory; by rewrite Hd|].
      intros q. by rewrite Htree2. }
  apply log_directory_returned in Hlog as (lp & t3 & created & Hlp & Hmk3 & _ & Happ); [|done].
  cbn [tree ticks] in *.
  pose proof (append_rows_file _ _ _ _ _ Happ) as Hfile.
  pose proof (append_rows_same_dirs _ _ _ _ _ Happ) as Hsame.
  assert (Hmk3' : Fs.mkdir_walk (tree wb) (start_of e lp) (Fs.parts lp) = Some (tree wb)).
  { rewrite Htree2. eapply mkdir_walk_again; [exact Hmk3|]. intros q. apply Hsame. }
  rewrite <- Htree2 in Hfile.
  destruct (log_directory_again e d p tz wb lp _ _ Hd Hlp Hmk3' Hfile) as [created' Hlog2].
  eexists. split; [apply Hrun, Hlog2|]. cbn [tree].
  rewrite <- Htree2.
  exact (append_rows_same_dirs _ _ _ _ _ (append_rows_again _ _ headers _ _ Hfile)).
Qed.

(** C7, as stated, fails: the arguments do not fix the name when a date or
    a time is requested.  With [use_time=True] and a clock that has moved
    on by a minute, the second call returns another path and creates a
    second directory. *)
Lemma repeated_call_with_time_differs :
  exists p1 w1 p2 w2,
    create_dir Example.machine NoFile Example.timed Example.empty_disk = (Returned p1, w1)
    /\ create_dir Example.machine NoFile Example.timed w1 = (Returned p2, w2)
    /\ p1 <> p2
    /\ tree w1 !! ["work"; "out"; "data-12:01AM"] = None
    /\ tree w2 !! ["work"; "out"; "data-12:01AM"] = Some Fs.Dir.
Proof.
  do 4 eexists. split; [vm_compute; reflexivity|].
  split; [vm_compute; reflexivity|].
  split; [discriminate|]. split; vm_compute; reflexivity.
Qed.

Lemma repeated_plain_call_reuses_directory_witness :
  let w1 := snd (create_dir Example.machine Example.logging Example.plain Example.empty_disk) in
  let p := {| Fs.absolute := false; Fs.parts := ["out"; "data"] |} in
  create_dir Example.machine Example.logging Example.plain Example.empty_disk = (Returned p, w1)
  /\ exists w2, create_dir Example.machine Example.logging Example.plain w1 = (Returned p, w2)
                /\ same_dirs (tree w1) (tree w2).
Proof.
  intros w1 p.
  assert (H : create_dir Example.machine Example.logging Example.plain Example.empty_disk
              = (Returned p, w1)) by (vm_compute; reflexivity).
  split; [exact H|].
  exact (proj2 (repeated_plain_call_reuses_directory
                  Example.machine Example.logging Example.plain Example.empty_disk p w1
                  eq_refl eq_refl (or_introl eq_refl) H)).
Defined.

(** ** The log file *)

Lemma mkdir_walk_absent_or_dir t cur names t' q :
  Fs.mkdir_walk t cur names = Some t' ->
  t !! q = None \/ t !! q = Some Fs.Dir ->
  t' !! q = None \/ t' !! q = Some Fs.Dir.
Proof.
  intros Hw Hq. destruct (mkdir_walk_adds_dirs _ _ _ _ q Hw) as [->|[_ ->]]; auto.
Qed.

(** C8. Where there is no log file yet, two calls that return, made with a
    configured (nonempty) log directory, leave a log file of exactly three
    rows: the header, the row of the first call, the row of the second.
    The arguments of the two calls are arbitrary: it does not matter
    whether they create two directories or come back to the same one. *)
Theorem two_calls_log_one_header_two_rows e file cfg d log_file a1 a2 w p1 w1 p2 w2 :
  load_config file = inr cfg ->
  cfg_log_dir cfg = Some d ->
  Py.truthy d = true ->
  log_file_of e d = Some log_file ->
  tree w !! log_file = None ->
  create_dir e file a1 w = (Returned p1, w1) ->
  create_dir e file a2 w1 = (Returned p2, w2) ->
  exists date1 date2,
    tree w2 !! log_file
    = Some (Fs.File [headers;
                     [date1; Fs.name p1; absolute_str e p1];
                     [date2; Fs.name p2; absolute_str e p2]]).
Proof.
  intros Hcfg Hld Hd Hlf Hnone Hcall1 Hcall2.
  unfold log_file_of in Hlf.
  destruct (expand_home e (Fs.Path d)) as [lp|] eqn:Hlp; [|discriminate].
  injection Hlf as <-.
  destruct (create_dir_returned _ _ _ _ _ _ Hcall1)
    as (cfg1 & tz1 & t1 & stamp1 & wa & n1 & t2 & Hcfg1 & _ & Hmk1 & Hts1 & _ & _ & Hmk2 & Hlog1).
  destruct (create_dir_returned _ _ _ _ _ _ Hcall2)
    as (cfg2 & tz2 & t1' & stamp2 & wa' & n2 & t2' & Hcfg2 & _ & Hmk1' & Hts2 & _ & _ & Hmk2' & Hlog2).
  rewrite Hcfg in Hcfg1, Hcfg2. injection Hcfg1 as <-. injection Hcfg2 as <-.
  rewrite Hld in Hlog1, Hlog2.
  apply make_timestamp_returned in Hts1 as [Htree1 _].
  apply make_timestamp_returned in Hts2 as [Htree2 _]. cbn [tree] in *.
  apply log_directory_returned in Hlog1 as (lp1 & t3 & date1 & Hlp1 & Hmk3 & _ & Happ1); [|done].
  apply log_directory_returned in Hlog2 as (lp2 & t3' & date2 & Hlp2 & Hmk3' & _ & Happ2); [|done].
  rewrite Hlp in Hlp1, Hlp2. injection Hlp1 as <-. injection Hlp2 as <-.
  cbn [tree] in *. rewrite Htree1 in Hmk2. rewrite Htree2 in Hmk2'.
  exists date1, date2.
  (* the first call finds no log file and writes the header and its row *)
  assert (H3 : t3 !! locate e (Fs.joinpath lp "smartdirs.log") = None).
  { assert (H : t3 !! locate e (Fs.joinpath lp "smartdirs.log") = None
                \/ t3 !! locate e (Fs.joinpath lp "smartdirs.log") = Some Fs.Dir).
    { eapply mkdir_walk_absent_or_dir; [exact Hmk3|].
      eapply mkdir_walk_absent_or_dir; [exact Hmk2|].
      eapply mkdir_walk_absent_or_dir; [exact Hmk1|]. by left. }
    destruct H as [H|H]; [exact H|].
    unfold Fs.append_rows in Happ1. rewrite H in Happ1. discriminate. }
  pose proof (append_rows_file _ _ _ _ _ Happ1) as Hfile1. rewrite H3 in Hfile1.
  (* the second call finds it and adds its row *)
  assert (H3' : t3' !! locate e (Fs.joinpath lp "smartdirs.log")
                = Some (Fs.File [headers; [date1; Fs.name p1; absolute_str e p1]])).
  { eapply mkdir_walk_keeps; [exact Hmk3'|].
    eapply mkdir_walk_keeps; [exact Hmk2'|].
    eapply mkdir_walk_keeps; [exact Hmk1'|]. exact Hfile1. }
  pose proof (append_rows_file _ _ _ _ _ Happ2) as Hfile2. rewrite H3' in Hfile2.
  exact Hfile2.
Qed.

Lemma two_calls_log_one_header_two_rows_witness :
  let w1 := snd (create_dir Example.machine Example.logging Example.numbered Example.empty_disk) in
  let w2 := snd (create_dir Example.machine Example.logging Example.plain w1) in
  exists date1 date2,
    tree w2 !! ["home"; "u"; "logs"; "smartdirs.log"]
    = Some (Fs.File [["Date"; "Directory"; "Path"];
                     [date1; "1-data"; "/work/out/1-data"];
                     [date2; "data"; "/work/out/data"]]).
Proof.
  intros w1 w2.
  exact (two_calls_log_one_header_two_rows
           Example.machine Example.logging _ "~/logs" ["home"; "u"; "logs"; "smartdirs.log"]
           Example.numbered Example.plain Example.empty_disk
           {| Fs.absolute := false; Fs.parts := ["out"; "1-data"] |} w1
           {| Fs.absolute := false; Fs.parts := ["out"; "data"] |} w2
           eq_refl eq_refl eq_refl eq_refl eq_refl
           ltac:(vm_compute; reflexivity) ltac:(vm_compute; reflexivity)).
Defined.

(** ** The matcher *)

Lemma run_opt body pos s c k :
  Re.run (Re.Opt body) pos s c k
  = match Re.run_seq body pos s c k with
    | Some res => Some res
    | None => k pos s c
    end.
Proof. reflexivity. Qed.

Lemma lang_opt body pos w rest :
  lang (Re.Opt body) pos w rest <-> w = "" \/ lang_seq body pos w rest.
Proof. reflexivity. Qed.

Lemma number_cons x t :
  Py.is_digit x = true -> (t = "" \/ number t) -> number (String x t).
Proof.
  intros Hx Ht. split; [discriminate|]. simpl. rewrite Hx.
  destruct Ht as [->|[_ Ht]]; [reflexivity|exact Ht].
Qed.

Lemma length_append (a b : string) :
  String.length (a +:+ b) = (String.length a + String.length b)%nat.
Proof. induction a; simpl; congruence. Qed.

Lemma digits_greedy_sound s : forall taken pos k res,
  Re.digits_greedy taken pos s k = Some res ->
  exists d s', number d /\ s = d +:+ s'
               /\ k (taken +:+ d) (pos + String.length d)%nat s' = Some res.
Proof.
  induction s as [|x s IH]; intros taken pos k res; simpl; [discriminate|].
  destruct (Py.is_digit x) eqn:Hx; [|discriminate].
  destruct (Re.digits_greedy _ _ s k) as [r|] eqn:Hrec.
  - intros [= ->]. destruct (IH _ _ _ _ Hrec) as (d & s' & Hd & -> & Hk).
    exists (String x d), s'. rewrite append_assoc in Hk.
    split; [apply number_cons; auto|]. split; [reflexivity|].
    simpl. by rewrite Nat.add_succ_r.
  - intros Hk. exists (String x ""), s.
    split; [apply number_cons; auto|]. split; [reflexivity|].
    simpl. by rewrite Nat.add_1_r.
Qed.

Lemma set_group_numbered g d c :
  number d -> numbered_groups c -> numbered_groups (Re.set_group g d c).
Proof.
  intros Hd [H1 H2]. destruct g; split; simpl; auto; by intros t [= <-].
Qed.

Lemma sound_seq_of rs : Forall sound rs -> sound_seq rs.
Proof.
  induction 1 as [|r rs Hr _ IH]; intros pos s c k res; simpl.
  - intros Hk. exists "", s, c. rewrite Nat.add_0_r. auto.
  - intros Hrun. apply Hr in Hrun as (w1 & s1 & c1 & -> & Hl1 & Hk & Hc1).
    apply IH in Hk as (w2 & s2 & c2 & -> & Hl2 & Hk & Hc2).
    exists (w1 +:+ w2), s2, c2.
    split; [by rewrite append_assoc|].
    split; [by exists w1, w2|].
    split; [by rewrite length_append, Nat.add_assoc|].
    intros Hc. by apply Hc2, Hc1.
Qed.

Lemma run_sound r : sound r.
Proof.
  induction r as [a|g|body IH| |] using regex_induction; intros pos s c k res.
  - simpl. destruct s as [|x s]; [discriminate|].
    destruct (Re.atom_match a x) eqn:Ha; [|discriminate]. intros Hk.
    exists (String x ""), s, c. simpl. rewrite Nat.add_1_r.
    split; [reflexivity|]. split; [by exists x|]. split; [exact Hk|auto].
  - simpl. intros Hrun.
    apply digits_greedy_sound in Hrun as (d & s' & Hd & -> & Hk).
    exists d, s', (Re.set_group g d c).
    split; [reflexivity|]. split; [exact Hd|]. split; [exact Hk|].
    by apply set_group_numbered.
  - rewrite run_opt. apply sound_seq_of in IH.
    destruct (Re.run_seq body pos s c k) as [r|] eqn:Hrun.
    + intros [= ->]. apply IH in Hrun as (w & s' & c' & -> & Hl & Hk & Hc).
      exists w, s', c'. rewrite lang_opt.
      split; [reflexivity|]. split; [by right|]. split; [exact Hk|exact Hc].
    + intros Hk. exists "", s, c. rewrite Nat.add_0_r, lang_opt.
      split; [reflexivity|]. split; [by left|]. split; [exact Hk|auto].
  - simpl. destruct pos; [|discriminate]. intros Hk. exists "", s, c. simpl.
    split; [reflexivity|]. split; [by split|]. split; [exact Hk|auto].
  - simpl. destruct (Re.at_end s) eqn:He; [|discriminate]. intros Hk.
    exists "", s, c. rewrite Nat.add_0_r. simpl.
    split; [reflexivity|]. split; [by split|]. split; [exact Hk|auto].
Qed.

Lemma run_seq_sound rs : sound_seq rs.
Proof. apply sound_seq_of, Forall_forall. intros r _. apply run_sound. Qed.





(** The example of the specification: ["3-data-2"] gives 3 to the prefix
    maximum and 2 to the suffix maximum. *)
Example scan_3_data_2 :
  exists pat, Re.pattern "-" "data" = Some pat /\ scan pat ["3-data-2"] = (3, 2).
Proof. eexists. split; reflexivity. Qed.

Lemma digits_greedy_complete w : forall taken pos s' (k : string -> nat -> string -> option Re.captures),
  number w ->
  (forall text, is_Some (k text (pos + String.length w)%nat s')) ->
  is_Some (Re.digits_greedy taken pos (w +:+ s') k).
Proof.
  induction w as [|x w IH]; intros taken pos s' k [Hne Hd] Hk; [congruence|].
  simpl in Hd. apply andb_prop in Hd as [Hx Hw]. simpl. rewrite Hx.
  destruct (Re.digits_greedy _ _ (w +:+ s') k) as [r|] eqn:Hrec; [eauto|].
  destruct w as [|y w].
  - simpl in Hk. rewrite Nat.add_1_r in Hk. apply Hk.
  - exfalso. assert (Hsome : is_Some (Re.digits_greedy (taken +:+ String x "") (S pos)
                                        (String y w +:+ s') k)).
    { apply IH; [split; [discriminate|exact Hw]|].
      intros text. specialize (Hk text). simpl in *.
      by rewrite Nat.add_succ_r in Hk. }
    rewrite Hrec in Hsome. by destruct Hsome.
Qed.

Lemma complete_seq_of rs : Forall complete rs -> complete_seq rs.
Proof.
  induction 1 as [|r rs Hr _ IH]; intros pos w s' c k; simpl.
  - intros -> Hk. simpl. rewrite Nat.add_0_r in Hk. apply Hk.
  - intros (w1 & w2 & -> & Hl1 & Hl2) Hk. rewrite append_assoc.
    apply Hr; [exact Hl1|]. intros c'. apply IH; [exact Hl2|].
    intros c''. rewrite <- Nat.add_assoc, <- length_append. apply Hk.
Qed.

Lemma run_complete r : complete r.
Proof.
  induction r as [a|g|body IH| |] using regex_induction; intros pos w s' c k.
  - simpl. intros (x & -> & Ha) Hk. simpl. rewrite Ha.
    specialize (Hk c). simpl in Hk. by rewrite Nat.add_1_r in Hk.
  - simpl. intros Hw Hk. apply digits_greedy_complete; [exact Hw|].
    intros text. apply Hk.
  - rewrite lang_opt, run_opt. apply complete_seq_of in IH. intros Hl Hk.
    destruct (Re.run_seq body pos (w +:+ s') c k) as [r|] eqn:Hrun; [eauto|].
    destruct Hl as [->|Hl].
    + simpl. specialize (Hk c). by rewrite Nat.add_0_r in Hk.
    + exfalso. destruct (IH pos w s' c k Hl Hk) as [r Hr]. congruence.
  - simpl. intros [-> ->] Hk. simpl. apply (Hk c).
  - simpl. intros [-> He] Hk. simpl. rewrite He. specialize (Hk c).
    by rewrite Nat.add_0_r in Hk.
Qed.

Lemma run_seq_complete rs : complete_seq rs.
Proof. apply complete_seq_of, Forall_forall. intros r _. apply run_complete. Qed.

(** [re.match] succeeds exactly on the strings that start with a text of
    the pattern's language. *)
Lemma re_match_lang pat s :
  is_Some (Re.re_match pat s)
  <-> exists w s', s = w +:+ s' /\ lang_seq pat 0 w s'.
Proof.
  unfold Re.re_match. split.
  - intros [m Hm]. apply run_seq_sound in Hm as (w & s' & c & -> & Hl & _).
    by exists w, s'.
  - intros (w & s' & -> & Hl). apply run_seq_complete; [exact Hl|].
    intros c'. by exists c'.
Qed.

(** ** The language of the pattern of line 127 *)
Lemma lang_atoms t : forall pos w rest,
  lang_seq (map Re.Atom (Re.escape t)) pos w rest <-> w = t.
Proof.
  induction t as [|c t IH]; intros pos w rest; simpl; [reflexivity|]. split.
  - intros (w1 & w2 & -> & (x & -> & Hx) & Hl). apply IH in Hl as ->.
    apply Ascii.eqb_eq in Hx as ->. reflexivity.
  - intros ->. exists (String c ""), t. split; [reflexivity|].
    split; [exists c; split; [reflexivity|apply Ascii.eqb_refl]|]. by apply IH.
Qed.

Lemma lang_seq_app l1 l2 : forall pos w rest,
  lang_seq (l1 ++ l2) pos w rest
  <-> exists w1 w2, w = w1 +:+ w2
                    /\ lang_seq l1 pos w1 (w2 +:+ rest)
                    /\ lang_seq l2 (pos + String.length w1)%nat w2 rest.
Proof.
  induction l1 as [|r l1 IH]; intros pos w rest; simpl.
  - split.
    + intros H. exists "", w. rewrite Nat.add_0_r. auto.
    + intros (w1 & w2 & -> & -> & H). by rewrite Nat.add_0_r in H.
  - split.
    + intros (w1 & w' & -> & Hr & Hl). apply IH in Hl as (w2 & w3 & -> & Hl1 & Hl2).
      exists (w1 +:+ w2), w3. rewrite append_assoc. split; [reflexivity|].
      split; [|by rewrite length_append, Nat.add_assoc].
      exists w1, w2. rewrite append_assoc in Hr. auto.
    + intros (w12 & w3 & -> & (w1 & w2 & -> & Hr & Hl1) & Hl2).
      exists w1, (w2 +:+ w3). rewrite !append_assoc in *. split; [reflexivity|].
      split; [exact Hr|]. apply IH. exists w2, w3. split; [reflexivity|].
      split; [exact Hl1|]. by rewrite length_append, Nat.add_assoc in Hl2.
Qed.

Lemma lang_prefix sep pos w rest :
  lang (Re.Opt (Re.Digits Re.G1 :: map Re.Atom (Re.escape sep))) pos w rest
  <-> w = "" \/ exists n, number n /\ w = n +:+ sep.
Proof.
  rewrite lang_opt. simpl. split; (intros [->|H]; [by left|right]).
  - destruct H as (n & w2 & -> & Hn & ->%lang_atoms). by exists n.
  - destruct H as (n & Hn & ->). exists n, sep. split; [reflexivity|].
    split; [exact Hn|]. by apply lang_atoms.
Qed.

Lemma lang_suffix sep pos w rest :
  lang (Re.Opt (map Re.Atom (Re.escape sep) ++ [Re.Digits Re.G2])) pos w rest
  <-> w = "" \/ exists n, number n /\ w = sep +:+ n.
Proof.
  rewrite lang_opt, lang_seq_app. simpl. split; (intros [->|H]; [by left|right]).
  - destruct H as (w1 & w2 & -> & ->%lang_atoms & n & e & -> & Hn & ->).
    exists n. by rewrite append_empty_r.
  - destruct H as (n & Hn & ->). exists sep, n. split; [reflexivity|].
    split; [by apply lang_atoms|]. exists n, "". by rewrite append_empty_r.
Qed.

Lemma compile_text_ordinary sep :
  ordinary sep = true -> Re.compile_text sep = Some (Re.escape sep).
Proof.
  unfold ordinary. induction sep as [|c sep IH]; simpl; [reflexivity|].
  intros [Hc Hsep]%andb_prop. rewrite (IH Hsep).
  destruct (Ascii.eqb_spec c ".") as [->|_]; [discriminate|].
  apply negb_true_iff in Hc. rewrite Hc. reflexivity.
Qed.

Lemma at_end_cases s : Re.at_end s = true <-> s = "" \/ s = String Py.newline "".
Proof.
  destruct s as [|c [|d s]]; simpl.
  - intuition.
  - rewrite Ascii.eqb_eq. split; [intros ->; by right|]. intros [|[= ->]]; congruence.
  - split; [discriminate|]. intros [|]; discriminate.
Qed.

(** With a separator of ordinary characters the pattern accepts the names of
    the shape of the specification, and those names followed by one
    newline ([$] also matches before a final newline). *)
Theorem pattern_accepts_tagged_names sep base pat name :
  ordinary sep = true ->
  Re.pattern sep base = Some pat ->
  is_Some (Re.re_match pat name)
  <-> exists shaped nl,
        name = shaped +:+ nl
        /\ tagged_name sep base shaped
        /\ (nl = "" \/ nl = String Py.newline "").
Proof.
  intros Hsep. unfold Re.pattern. rewrite (compile_text_ordinary _ Hsep).
  intros [= <-]. rewrite re_match_lang. split.
  - intros (w & s' & -> & Hl). exists w, s'. split; [reflexivity|].
    cbn [app lang_seq] in Hl.
    destruct Hl as (w0 & w' & -> & [-> _] & Hl). cbn [String.append String.length Nat.add] in Hl.
    destruct Hl as (pre & w'' & -> & Hpre & Hl).
    apply lang_prefix in Hpre.
    apply lang_seq_app in Hl as (wb & w3 & -> & ->%lang_atoms & Hl).
    cbn [lang_seq] in Hl. destruct Hl as (suf & w4 & -> & Hsuf & e & e' & -> & [-> He] & ->).
    apply lang_suffix in Hsuf. cbn [String.append] in *. rewrite !append_empty_r in *.
    split; [|by apply at_end_cases].
    exists pre, suf. auto.
  - intros (shaped & nl & -> & (pre & suf & -> & Hpre & Hsuf) & Hnl).
    exists (pre +:+ base +:+ suf), nl. split; [reflexivity|].
    cbn [app lang_seq]. exists "", (pre +:+ base +:+ suf). split; [reflexivity|].
    split; [by split|]. cbn [String.length Nat.add].
    exists pre, (base +:+ suf). split; [reflexivity|].
    split; [by apply lang_prefix|].
    apply lang_seq_app. exists base, suf. split; [reflexivity|].
    split; [by apply lang_atoms|]. cbn [lang_seq].
    exists suf, "". split; [by rewrite append_empty_r|].
    split; [by apply lang_suffix|].
    exists "", "". split; [reflexivity|]. split; [|reflexivity].
    split; [reflexivity|]. by apply at_end_cases.
Qed.

Lemma pattern_accepts_tagged_names_witness :
  exists pat, Re.pattern "-" "data" = Some pat
    /\ (is_Some (Re.re_match pat "3-data-2")
        <-> exists shaped nl,
              "3-data-2" = shaped +:+ nl
              /\ tagged_name "-" "data" shaped
              /\ (nl = "" \/ nl = String Py.newline "")).
Proof.
  eexists. split; [reflexivity|].
  exact (pattern_accepts_tagged_names "-" "data" _ "3-data-2" eq_refl eq_refl).
Defined.

(** ** Names read back by the pattern *)


































(** ** What a call changes *)

Lemma adds_dirs_refl t : adds_dirs t t.
Proof. intros q. by left. Qed.

Lemma adds_dirs_trans t1 t2 t3 : adds_dirs t1 t2 -> adds_dirs t2 t3 -> adds_dirs t1 t3.
Proof.
  intros H12 H23 q. destruct (H12 q) as [E12|[N1 D2]], (H23 q) as [E23|[N2 D3]].
  - left. congruence.
  - right. split; congruence.
  - right. split; congruence.
  - congruence.
Qed.

Lemma bind_cases {A B} (m : M A) (f : A -> M B) w r w' :
  bind m f w = (r, w') ->
  (exists a w1, m w = (Returned a, w1) /\ f a w1 = (r, w'))
  \/ (exists r0, m w = (r0, w')).
Proof.
  unfold bind. destruct (m w) as [[a|ex|] w1].
  - intros H. left. by exists a, w1.
  - intros [= _ <-]. right. by eexists.
  - intros [= _ <-]. right. by eexists.
Qed.

Lemma only_adds_dirs_bind {A B} (m : M A) (f : A -> M B) :
  only_adds_dirs m -> (forall a, only_adds_dirs (f a)) -> only_adds_dirs (bind m f).
Proof.
  intros Hm Hf w r w' [(a & w1 & H1 & H2)|[r0 H1]]%bind_cases.
  - eapply adds_dirs_trans; [exact (Hm _ _ _ H1)|exact (Hf _ _ _ _ H2)].
  - exact (Hm _ _ _ H1).
Qed.

Lemma adds_dirs_and_logs_bind {A B} lf (m : M A) (f : A -> M B) :
  only_adds_dirs m -> (forall a, adds_dirs_and_logs lf (f a)) ->
  adds_dirs_and_logs lf (bind m f).
Proof.
  intros Hm Hf w r w' [(a & w1 & H1 & H2)|[r0 H1]]%bind_cases.
  - pose proof (Hm _ _ _ H1) as Hd.
    destruct (Hf _ _ _ _ H2) as [Hd2|(p & t & row & Hp & Hd2 & Happ)].
    + left. by eapply adds_dirs_trans.
    + right. exists p, t, row. split; [exact Hp|]. split; [|exact Happ].
      by eapply adds_dirs_trans.
  - left. exact (Hm _ _ _ H1).
Qed.

Lemma only_adds_dirs_logs {A} lf (m : M A) : only_adds_dirs m -> adds_dirs_and_logs lf m.
Proof. intros Hm w r w' H. left. exact (Hm _ _ _ H). Qed.

Lemma keeps_world_adds {A} (m : M A) :
  (forall w r w', m w = (r, w') -> tree w' = tree w) -> only_adds_dirs m.
Proof. intros Hm w r w' H q. left. by rewrite (Hm _ _ _ H). Qed.

Lemma ret_adds {A} (a : A) : only_adds_dirs (ret a).
Proof. apply keeps_world_adds. by intros w r w' [= _ <-]. Qed.

Lemma raise_adds {A} ex : only_adds_dirs (@raise A ex).
Proof. apply keeps_world_adds. by intros w r w' [= _ <-]. Qed.

Lemma of_option_adds {A} (o : option A) : only_adds_dirs (of_option o).
Proof. apply keeps_world_adds. destruct o; by intros w r w' [= _ <-]. Qed.

Lemma datetime_now_adds e tz : only_adds_dirs (datetime_now e tz).
Proof. apply keeps_world_adds. by intros w r w' [= _ <-]. Qed.

Lemma existing_dirs_adds e p : only_adds_dirs (existing_dirs e p).
Proof. apply keeps_world_adds. by intros w r w' [= _ <-]. Qed.

Lemma lift_config_adds r : only_adds_dirs (lift_config r).
Proof. destruct r; [apply raise_adds|apply ret_adds]. Qed.

Lemma resolve_timezone_adds e tz cfg : only_adds_dirs (resolve_timezone e tz cfg).
Proof.
  rewrite resolve_timezone_supplied. destruct (supplied_timezone tz cfg) as [z|].
  - unfold pytz_timezone. destruct (known_zone e z); [apply ret_adds|apply raise_adds].
  - apply ret_adds.
Qed.

Lemma expanduser_adds e p : only_adds_dirs (expanduser e p).
Proof. unfold expanduser. destruct (expand_home e p); [apply ret_adds|apply raise_adds]. Qed.

Lemma mkdir_adds e p : only_adds_dirs (mkdir e p).
Proof.
  intros w r w'. unfold mkdir.
  destruct (Fs.mkdir_walk _ _ _) as [t|] eqn:Hw.
  - intros [= _ <-]. intros q. exact (mkdir_walk_adds_dirs _ _ _ _ q Hw).
  - intros [= _ <-]. apply adds_dirs_refl.
Qed.

Lemma make_timestamp_adds e tz a tf : only_adds_dirs (make_timestamp e tz a tf).
Proof.
  unfold make_timestamp. destruct (Args.use_date a || Args.use_time a); [|apply ret_adds].
  apply only_adds_dirs_bind; [apply datetime_now_adds|]. intros now. apply of_option_adds.
Qed.

Lemma write_log_logs e log_file row :
  adds_dirs_and_logs (Some (locate e log_file)) (write_log e log_file row).
Proof.
  intros w r w'. unfold write_log.
  destruct (Fs.append_rows _ _ _ _) as [t|] eqn:Happ.
  - intros [= _ <-]. right. exists (locate e log_file), (tree w), row.
    split; [reflexivity|]. split; [apply adds_dirs_refl|exact Happ].
  - intros [= _ <-]. left. apply adds_dirs_refl.
Qed.

Lemma log_directory_logs e log_dir dir_path tz :
  adds_dirs_and_logs
    (match log_dir with
     | Some d => if Py.truthy d then log_file_of e d else None
     | None => None
     end)
    (log_directory e log_dir dir_path tz).
Proof.
  unfold log_directory. destruct log_dir as [d|]; [|apply only_adds_dirs_logs, ret_adds].
  destruct (Py.truthy d); [|apply only_adds_dirs_logs, ret_adds].
  unfold log_file_of, expanduser.
  destruct (expand_home e (Fs.Path d)) as [lp|].
  - intros w r w'. unfold bind at 1, ret. revert w r w'.
    change (adds_dirs_and_logs
              (Some (locate e (Fs.joinpath lp "smartdirs.log")))
              (bind (mkdir e lp)
                 (fun _ => bind (datetime_now e tz)
                   (fun now => bind (of_option (creation_time now))
                     (fun created =>
                        write_log e (Fs.joinpath lp "smartdirs.log")
                          [created; Fs.name dir_path; absolute_str e dir_path]))))).
    apply adds_dirs_and_logs_bind; [apply mkdir_adds|]. intros _.
    apply adds_dirs_and_logs_bind; [apply datetime_now_adds|]. intros now.
    apply adds_dirs_and_logs_bind; [apply of_option_adds|]. intros created.
    apply write_log_logs.
  - intros w r w'. unfold bind, raise. intros [= _ <-]. left. apply adds_dirs_refl.
Qed.

Lemma adds_dirs_and_logs_then {A B} lf (m : M A) (f : A -> M B) :
  adds_dirs_and_logs lf m ->
  (forall a w r w', f a w = (r, w') -> tree w' = tree w) ->
  adds_dirs_and_logs lf (bind m f).
Proof.
  intros Hm Hf w r w' [(a & w1 & H1 & H2)|[r0 H1]]%bind_cases.
  - rewrite (Hf _ _ _ _ H2). exact (Hm _ _ _ H1).
  - exact (Hm _ _ _ H1).
Qed.

Lemma create_dir_logs e file a :
  adds_dirs_and_logs (configured_log_file e file) (create_dir e file a).
Proof.
  unfold create_dir, configured_log_file.
  destruct (load_config file) as [err|cfg].
  - intros w r w'. unfold bind, lift_config, raise. intros [= _ <-]. left. apply adds_dirs_refl.
  - intros w r w'. unfold bind at 1, lift_config, ret. revert w r w'.
    apply adds_dirs_and_logs_bind; [apply resolve_timezone_adds|]. intros tz.
    apply adds_dirs_and_logs_bind; [apply mkdir_adds|]. intros _.
    apply adds_dirs_and_logs_bind; [apply make_timestamp_adds|]. intros stamp.
    apply adds_dirs_and_logs_bind; [apply existing_dirs_adds|]. intros existing.
    apply adds_dirs_and_logs_bind; [apply of_option_adds|]. intros new_name.
    apply adds_dirs_and_logs_bind; [apply mkdir_adds|]. intros _.
    apply adds_dirs_and_logs_then; [apply log_directory_logs|].
    by intros _ w r w' [= _ <-].
Qed.

(** Whatever its outcome, a call removes nothing and overwrites nothing: at
    every place of the tree it leaves what was there, or puts a directory
    where there was nothing, or, at the configured log file only, appends
    one row (after the header when the file is new). *)
Theorem create_dir_only_adds e file a w r w' :
  create_dir e file a w = (r, w') ->
  forall q,
    tree w' !! q = tree w !! q
    \/ (tree w !! q = None /\ tree w' !! q = Some Fs.Dir)
    \/ (configured_log_file e file = Some q
        /\ tree w !! q <> Some Fs.Dir
        /\ exists row,
             tree w' !! q
             = Some (Fs.File (match tree w !! q with
                              | Some (Fs.File rows) => rows ++ [row]
                              | _ => [headers; row]
                              end))).
Proof.
  intros H q. destruct (create_dir_logs e file a w r w' H)
    as [Hd|(p & t & row & Hp & Hd & Happ)].
  - destruct (Hd q) as [E|D]; auto.
  - destruct (decide (q = p)) as [->|Hq].
    + right. right. split; [exact Hp|].
      assert (Ht : t !! p = tree w !! p /\ t !! p <> Some Fs.Dir).
      { assert (Hnd : t !! p <> Some Fs.Dir).
        { unfold Fs.append_rows in Happ. intros E. by rewrite E in Happ. }
        destruct (Hd p) as [E|[_ D]]; [by split|contradiction]. }
      destruct Ht as [Ht Hnd]. split; [by rewrite <- Ht|].
      exists row. rewrite (append_rows_file _ _ _ _ _ Happ). by rewrite Ht.
    + rewrite (append_rows_other _ _ _ _ _ _ Happ Hq).
      destruct (Hd q) as [E|D]; auto.
Qed.

Lemma create_dir_only_adds_witness :
  let w1 := snd (create_dir Example.machine Example.logging Example.numbered Example.empty_disk) in
  let q := ["home"; "u"; "logs"; "smartdirs.log"] in
  tree w1 !! q = tree Example.empty_disk !! q
  \/ (tree Example.empty_disk !! q = None /\ tree w1 !! q = Some Fs.Dir)
  \/ (configured_log_file Example.machine Example.logging = Some q
      /\ tree Example.empty_disk !! q <> Some Fs.Dir
      /\ exists row,
           tree w1 !! q
           = Some (Fs.File (match tree Example.empty_disk !! q with
                            | Some (Fs.File rows) => rows ++ [row]
                            | _ => [headers; row]
                            end))).
Proof.
  intros w1 q.
  exact (create_dir_only_adds Example.machine Example.logging Example.numbered
           Example.empty_disk _ w1 ltac:(vm_compute; reflexivity) q).
Defined.

(** ** The directory and the log row of a call that returns *)

Lemma resolve_is_visited names : forall cur,
  names <> [] -> last names <> Some ".." ->
  Fs.resolve cur names ∈ visited cur names.
Proof.
  induction names as [|n rest IH]; intros cur Hne Hlast; [congruence|].
  cbn [Fs.resolve visited]. destruct rest as [|n' rest].
  - simpl in Hlast. destruct (String.eqb_spec n ".."); [congruence|].
    simpl. apply list_elem_of_here.
  - assert (Hl : last (n' :: rest) <> Some "..") by (by rewrite last_cons_cons in Hlast).
    destruct (String.eqb n "..").
    + by apply IH.
    + apply list_elem_of_further. by apply IH.
Qed.

Lemma returned_path_dir e file a w p w' :
  create_dir e file a w = (Returned p, w') ->
  Fs.parts p <> [] -> last (Fs.parts p) <> Some ".." ->
  tree w' !! locate e p = Some Fs.Dir.
Proof.
  intros Hcall Hparts Hlast.
  destruct (create_dir_returned _ _ _ _ _ _ Hcall)
    as (cfg & tz & t1 & stamp & wa & new_name & t2 & _ & _ & _ & _ & _ & _ & Hmk & Hlog).
  apply log_directory_dirs_kept in Hlog. apply Hlog. cbn [tree].
  pose proof (mkdir_walk_visited _ _ _ _ Hmk) as Hv.
  rewrite Forall_forall in Hv. apply Hv. by apply resolve_is_visited.
Qed.

(** The path a call returns is a directory of the tree the call leaves
    (for a path with a last name other than [..]). *)
Theorem returned_path_is_a_directory e file a w p w' :
  create_dir e file a w = (Returned p, w') ->
  Fs.parts p <> [] -> last (Fs.parts p) <> Some ".." ->
  tree w' !! locate e p = Some Fs.Dir.
Proof. apply returned_path_dir. Qed.

Lemma returned_path_is_a_directory_witness :
  let w1 := snd (create_dir Example.machine Example.logging Example.numbered Example.empty_disk) in
  tree w1 !! ["work"; "out"; "1-data"] = Some Fs.Dir.
Proof.
  intros w1.
  exact (returned_path_is_a_directory Example.machine Example.logging Example.numbered
           Example.empty_disk {| Fs.absolute := false; Fs.parts := ["out"; "1-data"] |} w1
           ltac:(vm_compute; reflexivity) ltac:(discriminate) ltac:(discriminate)).
Defined.

Lemma returned_call_row e file cfg d log_file a w p w' :
  load_config file = inr cfg ->
  cfg_log_dir cfg = Some d ->
  Py.truthy d = true ->
  log_file_of e d = Some log_file ->
  create_dir e file a w = (Returned p, w') ->
  exists date,
    tree w' !! log_file
    = Some (Fs.File (match tree w !! log_file with
                     | Some (Fs.File rows) =>
                         rows ++ [[date; Fs.name p; absolute_str e p]]
                     | _ => [headers; [date; Fs.name p; absolute_str e p]]
                     end))
    /\ tree w !! log_file <> Some Fs.Dir.
Proof.
  intros Hcfg Hld Hd Hlf Hcall. unfold log_file_of in Hlf.
  destruct (expand_home e (Fs.Path d)) as [lp|] eqn:Hlp; [|discriminate].
  injection Hlf as <-.
  destruct (create_dir_returned _ _ _ _ _ _ Hcall)
    as (cfg1 & tz & t1 & stamp & wa & new_name & t2 & Hcfg1 & _ & Hmk1 & Hts & _ & _ & Hmk2 & Hlog).
  rewrite Hcfg in Hcfg1. injection Hcfg1 as <-. rewrite Hld in Hlog.
  apply make_timestamp_returned in Hts as [Htree _]. cbn [tree] in Htree.
  apply log_directory_returned in Hlog as (lp1 & t3 & date & Hlp1 & Hmk3 & _ & Happ); [|done].
  rewrite Hlp in Hlp1. injection Hlp1 as <-. cbn [tree] in *. rewrite Htree in Hmk2.
  set (lf := locate e (Fs.joinpath lp "smartdirs.log")) in *.
  assert (Hnd : t3 !! lf <> Some Fs.Dir).
  { unfold Fs.append_rows in Happ. intros E. by rewrite E in Happ. }
  assert (Hsame : t3 !! lf = tree w !! lf).
  { destruct (mkdir_walk_adds_dirs _ _ _ _ lf Hmk3) as [E3|[_ D]]; [|contradiction].
    destruct (mkdir_walk_adds_dirs _ _ _ _ lf Hmk2) as [E2|[_ D]]; [|congruence].
    destruct (mkdir_walk_adds_dirs _ _ _ _ lf Hmk1) as [E1|[_ D]]; congruence. }
  exists date. split; [|by rewrite <- Hsame].
  rewrite (append_rows_file _ _ _ _ _ Happ). by rewrite Hsame.
Qed.

(** A call that returns with a log directory configured has appended
    exactly one row to the log file, with the name and the absolute path
    of the directory it returns: after the rows that were there, or after
    a header when there was no file. *)
Theorem returned_call_logs_one_row e file cfg d log_file a w p w' :
  load_config file = inr cfg ->
  cfg_log_dir cfg = Some d ->
  Py.truthy d = true ->
  log_file_of e d = Some log_file ->
  create_dir e file a w = (Returned p, w') ->
  exists date,
    tree w' !! log_file
    = Some (Fs.File (match tree w !! log_file with
                     | Some (Fs.File rows) =>
                         rows ++ [[date; Fs.name p; absolute_str e p]]
                     | _ => [headers; [date; Fs.name p; absolute_str e p]]
                     end))
    /\ tree w !! log_file <> Some Fs.Dir.
Proof. apply returned_call_row. Qed.

Lemma returned_call_logs_one_row_witness :
  let w1 := snd (create_dir Example.machine Example.logging Example.numbered Example.empty_disk) in
  let w2 := snd (create_dir Example.machine Example.logging Example.numbered w1) in
  exists date,
    tree w2 !! ["home"; "u"; "logs"; "smartdirs.log"]
    = Some (Fs.File (match tree w1 !! ["home"; "u"; "logs"; "smartdirs.log"] with
                     | Some (Fs.File rows) => rows ++ [[date; "2-data"; "/work/out/2-data"]]
                     | _ => [headers; [date; "2-data"; "/work/out/2-data"]]
                     end))
    /\ tree w1 !! ["home"; "u"; "logs"; "smartdirs.log"] <> Some Fs.Dir.
Proof.
  intros w1 w2.
  exact (returned_call_logs_one_row Example.machine Example.logging _ "~/logs"
           ["home"; "u"; "logs"; "smartdirs.log"] Example.numbered w1
           {| Fs.absolute := false; Fs.parts := ["out"; "2-data"] |} w2
           eq_refl eq_refl eq_refl eq_refl ltac:(vm_compute; reflexivity)).
Defined.

(** Where a directory sits at the place of the log file, no call returns. *)
Theorem log_file_taken_by_directory e file cfg d log_file a w :
  load_config file = inr cfg ->
  cfg_log_dir cfg = Some d ->
  Py.truthy d = true ->
  log_file_of e d = Some log_file ->
  tree w !! log_file = Some Fs.Dir ->
  forall p w', create_dir e file a w <> (Returned p, w').
Proof.
  intros Hcfg Hld Hd Hlf Hdir p w' Hcall.
  destruct (returned_call_row _ _ _ _ _ _ _ _ _ Hcfg Hld Hd Hlf Hcall)
    as (date & _ & Hnd).
  contradiction.
Qed.

Lemma log_file_taken_by_directory_witness :
  let w := {| tree := {[ ["home"; "u"; "logs"; "smartdirs.log"] := Fs.Dir ]}; ticks := 0 |} in
  let p := {| Fs.absolute := false; Fs.parts := ["out"; "1-data"] |} in
  create_dir Example.machine Example.logging Example.numbered w <> (Returned p, w).
Proof.
  intros w p.
  exact (log_file_taken_by_directory Example.machine Example.logging _ "~/logs"
           ["home"; "u"; "logs"; "smartdirs.log"] Example.numbered w
           eq_refl eq_refl eq_refl eq_refl ltac:(vm_compute; reflexivity) p w).
Defined.

(** ** The settings file *)





(** A settings file with a malformed boolean stops the call before it
    changes anything, whatever the arguments. *)
Theorem malformed_boolean_stops_the_call e tz v log a w :
  boolean_state v = None ->
  create_dir e (Section tz (Some v) log) a w = (Raised ValueError, w).
Proof.
  intros Hv. unfold create_dir, bind. simpl. by rewrite Hv.
Qed.

Lemma malformed_boolean_stops_the_call_witness :
  create_dir Example.machine (Section None (Some "maybe") (Some "~/logs"))
    Example.numbered Example.empty_disk
  = (Raised ValueError, Example.empty_disk).
Proof.
  exact (malformed_boolean_stops_the_call Example.machine None "maybe" (Some "~/logs")
           Example.numbered Example.empty_disk eq_refl).
Defined.

(** What is passed as an argument wins over the settings file: with a
    nonempty [timezone] and a [time_format] given, the configured time
    zone and the configured seconds flag have no effect on the call. *)
Theorem arguments_override_settings e a tz1 tz2 v1 v2 b1 b2 log zone fmt w :
  Args.timezone a = Some zone -> zone <> "" ->
  Args.time_format a = Some fmt ->
  getboolean v1 false = inr b1 ->
  getboolean v2 false = inr b2 ->
  create_dir e (Section tz1 v1 log) a w = create_dir e (Section tz2 v2 log) a w.
Proof.
  intros Hzone Hne Hfmt H1 H2. unfold create_dir. cbn [load_config].
  rewrite H1, H2. cbn [lift_config]. unfold bind at 1, ret. symmetry. unfold bind at 1, ret.
  rewrite Hzone, Hfmt. destruct zone as [|c z]; [congruence|]. reflexivity.
Qed.

Lemma arguments_override_settings_witness :
  let a := with_timezone Example.timed (Some "UTC") in
  let a' := {| Args.base_name := Args.base_name a; Args.parent_dir := Args.parent_dir a;
               Args.use_date := true; Args.use_time := true;
               Args.date_format := Args.date_format a; Args.time_format := Some "%H%M";
               Args.timezone := Args.timezone a; Args.prefix := true; Args.suffix := true;
               Args.separator := "_" |} in
  create_dir Example.machine (Section (Some "Mars/Olympus") (Some "yes") None) a'
    Example.empty_disk
  = create_dir Example.machine (Section None None None) a' Example.empty_disk.
Proof.
  intros a a'.
  exact (arguments_override_settings Example.machine a' (Some "Mars/Olympus") None
           (Some "yes") None true false None "UTC" "%H%M" Example.empty_disk
           eq_refl ltac:(discriminate) eq_refl eq_refl eq_refl).
Defined.

(** ** The sibling directories *)

Lemma child_name_spec dir p name :
  Fs.child_name dir p = Some name <-> p = dir ++ [name].
Proof.
  unfold Fs.child_name. split.
  - destruct (List.rev p) as [|n up] eqn:Hrev; [discriminate|].
    destruct (decide (List.rev up = dir)) as [<-|]; [|discriminate].
    intros [= <-]. rewrite <- (List.rev_involutive p), Hrev. reflexivity.
  - intros ->. rewrite List.rev_app_distr. simpl.
    rewrite List.rev_involutive. by rewrite decide_True.
Qed.

Lemma subdirs_child t dir name :
  name ∈ Fs.subdirs t dir <-> t !! (dir ++ [name]) = Some Fs.Dir.
Proof.
  unfold Fs.subdirs. rewrite list_elem_of_omap. split.
  - intros ([p n] & Hin & Hf). apply elem_of_map_to_list in Hin.
    destruct n as [|rows]; [|discriminate].
    apply child_name_spec in Hf as ->. exact Hin.
  - intros Hd. exists (dir ++ [name], Fs.Dir). split.
    + by apply elem_of_map_to_list.
    + by apply child_name_spec.
Qed.

Lemma NoDup_omap_strong {A B} (f : A -> option B) (l : list A) :
  (forall x y z, x ∈ l -> y ∈ l -> f x = Some z -> f y = Some z -> x = y) ->
  NoDup l -> NoDup (omap f l).
Proof.
  induction l as [|a l IH]; intros Hinj Hnd; [constructor|].
  apply NoDup_cons in Hnd as [Ha Hl]. cbn [omap list_omap].
  assert (Hrest : NoDup (omap f l)).
  { apply IH; [|exact Hl]. intros x y z Hx Hy. apply Hinj; by apply list_elem_of_further. }
  destruct (f a) as [b|] eqn:Hfa; [|exact Hrest].
  apply NoDup_cons. split; [|exact Hrest].
  intros (x & Hx & Hfx)%list_elem_of_omap.
  assert (a = x) as ->; [|contradiction].
  apply (Hinj a x b); [apply list_elem_of_here|by apply list_elem_of_further|done|done].
Qed.

(** The siblings that are scanned are the names of the directories that lie
    directly in the parent: a file, or a directory further down, does not
    count, and no name is listed twice. *)
Theorem subdirs_are_child_directories t dir :
  (forall name, name ∈ Fs.subdirs t dir <-> t !! (dir ++ [name]) = Some Fs.Dir)
  /\ NoDup (Fs.subdirs t dir).
Proof.
  split; [apply subdirs_child|].
  unfold Fs.subdirs. apply NoDup_omap_strong; [|apply NoDup_map_to_list].
  intros [p1 n1] [p2 n2] name H1 H2 Hf1 Hf2.
  destruct n1; [|discriminate]. destruct n2; [|discriminate].
  apply child_name_spec in Hf1 as ->. by apply child_name_spec in Hf2 as ->.
Qed.

(** ** Names without a slash *)

























(** ** Parts of a name that are empty *)

Lemma lstrip_only_zeros k : Py.lstrip "0" (zeros k) = "".
Proof. induction k as [|k IH]; [reflexivity|exact IH]. Qed.

Lemma dir_base_no_stamp base sep : dir_base base "" sep = base.
Proof. unfold dir_base. by destruct base. Qed.

(** A time that formats to zeros only ([%H] at midnight, [%M] on the hour)
    is stripped to nothing and leaves no trace: the timestamp is the one of
    a call without [use_time], and without [use_date] the directory is
    named by the base name alone. *)
Theorem time_of_zeros_leaves_no_trace use_date date_format time_format separator now k :
  Clock.strftime time_format now = Some (zeros k) ->
  timestamp use_date true date_format time_format separator now
  = timestamp use_date false date_format time_format separator now
  /\ forall base_name,
       (fun stamp => dir_base base_name stamp separator)
         <$> timestamp false true date_format time_format separator now
       = Some base_name.
Proof.
  intros Hz. unfold timestamp, time_str. rewrite Hz. cbn [option_map orb].
  rewrite lstrip_only_zeros. split.
  - destruct use_date; reflexivity.
  - intros base_name. exact (f_equal Some (dir_base_no_stamp base_name separator)).
Qed.

Lemma time_of_zeros_leaves_no_trace_witness :
  let midnight := {| Clock.year := 2025; Clock.month := 5; Clock.day := 17;
                     Clock.hour := 0; Clock.minute := 30; Clock.second := 0 |} in
  timestamp true true "%Y-%m-%d" "%H" "_" midnight
  = timestamp true false "%Y-%m-%d" "%H" "_" midnight
  /\ (fun stamp => dir_base "data" stamp "_")
       <$> timestamp false true "%Y-%m-%d" "%H" "_" midnight
     = Some "data".
Proof.
  intros midnight.
  destruct (time_of_zeros_leaves_no_trace true "%Y-%m-%d" "%H" "_" midnight 2 eq_refl)
    as [Hstamp Hbase].
  exact (conj Hstamp (Hbase "data")).
Defined.

Lemma joinpath_empty p : Fs.joinpath p "" = p.
Proof. destruct p as [ab ps]. unfold Fs.joinpath. cbn. by rewrite app_nil_r. Qed.

(** A call without a base name and without any tag names no directory of
    its own: the path it returns is the parent directory. *)
Theorem call_without_name_returns_parent e file a w p w' :
  create_dir e file a w = (Returned p, w') ->
  Args.base_name a = "" ->
  Args.use_date a = false -> Args.use_time a = false ->
  Args.prefix a = false -> Args.suffix a = false ->
  p = Fs.Path (Args.parent_dir a).
Proof.
  intros Hcall Hbase Hdate Htime Hprefix Hsuffix.
  destruct (create_dir_returned _ _ _ _ _ _ Hcall)
    as (cfg & tz & t1 & stamp & wa & new_name & t2
        & _ & _ & _ & Hts & Hname & Hp & _ & _).
  unfold make_timestamp in Hts. rewrite Hdate, Htime in Hts. injection Hts as <- _.
  rewrite Hprefix, Hsuffix, Hbase in Hname.
  apply choose_name_plain in Hname as [-> _].
  rewrite Hp, dir_base_no_stamp. apply joinpath_empty.
Qed.

Lemma call_without_name_returns_parent_witness :
  let a := {| Args.base_name := ""; Args.parent_dir := "out";
              Args.use_date := false; Args.use_time := false;
              Args.date_format := "%Y-%m-%d"; Args.time_format := None;
              Args.timezone := None;
              Args.prefix := false; Args.suffix := false; Args.separator := "-" |} in
  {| Fs.absolute := false; Fs.parts := ["out"] |} = Fs.Path (Args.parent_dir a).
Proof.
  intros a.
  exact (call_without_name_returns_parent Example.machine Example.logging a
           Example.empty_disk _
           (snd (create_dir Example.machine Example.logging a Example.empty_disk))
           ltac:(vm_compute; reflexivity) eq_refl eq_refl eq_refl eq_refl eq_refl).
Defined.

(** ** Calls without a log directory *)

(** Without a log directory in the settings (none, or an empty one) a call
    writes no file, whatever its outcome: the files of the tree are the
    ones that were there, with the rows they had. *)
Theorem no_log_dir_writes_no_file e file cfg a w r w' :
  load_config file = inr cfg ->
  (forall d, cfg_log_dir cfg = Some d -> d = "") ->
  create_dir e file a w = (r, w') ->
  forall q rows, tree w' !! q = Some (Fs.File rows) <-> tree w !! q = Some (Fs.File rows).
Proof.
  intros Hcfg Hlog Hcall q rows.
  assert (Hnone : configured_log_file e file = None).
  { unfold configured_log_file. rewrite Hcfg.
    destruct (cfg_log_dir cfg) as [d|]; [|reflexivity]. by rewrite (Hlog d eq_refl). }
  destruct (create_dir_logs e file a w r w' Hcall) as [Hd|(p & _ & _ & Hp & _)];
    [|congruence].
  destruct (Hd q) as [->|[Hn Hdir]]; [reflexivity|].
  rewrite Hn, Hdir. split; discriminate.
Qed.

Lemma no_log_dir_writes_no_file_witness :
  let w1 := snd (create_dir Example.machine (Section None None (Some "")) Example.numbered
                   Example.empty_disk) in
  tree w1 !! ["work"; "smartdirs.log"] = Some (Fs.File [headers])
  <-> tree Example.empty_disk !! ["work"; "smartdirs.log"] = Some (Fs.File [headers]).
Proof.
  intros w1.
  exact (no_log_dir_writes_no_file Example.machine (Section None None (Some "")) _
           Example.numbered Example.empty_disk _ w1 eq_refl
           ltac:(by intros d [= <-]) ltac:(vm_compute; reflexivity)
           ["work"; "smartdirs.log"] [headers]).
Defined.
